(** * Phone extraction of the ePAC claim record page

    Shallow embedding of [EpacFichaPeritacionPage]
    (src/epac/pages/epac_ficha_peritacion_page.py): the candidate pattern,
    the cut patterns, [_normalizar_telefono], [_es_movil],
    [_extraer_numero_telefono], [_buscar_en_seccion], [_buscar_campo_telef]
    and [extraer_telefono].

    A Python [str] is a list of Unicode code points.  The regular
    expressions are run by a backtracking matcher written in
    continuation-passing style, which tries the alternatives in the order
    of Python's [re] module (first alternative first, greedy repetition
    longest first). *)

From Stdlib Require Import String Ascii List NArith ZArith Arith Bool Lia.
Import ListNotations.

Set Implicit Arguments.

(** ** Text *)

Module Text.

Definition char := N.
Definition str := list char.

(** An ASCII literal of the source as a [str]. *)
Definition py (s : string) : str := map N_of_ascii (list_ascii_of_string s).

Definition NL : char := 10%N.
Definition NBSP : char := 160%N.

Definition between (lo hi c : N) : bool := (lo <=? c)%N && (c <=? hi)%N.

(** White space of [str.strip()] and of the class [\s] on a [str] pattern. *)
Definition is_space (c : char) : bool :=
  between 9 13 c || between 28 32 c || (c =? 133)%N || (c =? 160)%N
  || (c =? 5760)%N || between 8192 8202 c || (c =? 8232)%N || (c =? 8233)%N
  || (c =? 8239)%N || (c =? 8287)%N || (c =? 12288)%N.

(** The same characters, listed. *)
Definition space_points : list char :=
  [9; 10; 11; 12; 13; 28; 29; 30; 31; 32; 133; 160; 5760; 8192; 8193; 8194;
   8195; 8196; 8197; 8198; 8199; 8200; 8201; 8202; 8232; 8233; 8239; 8287;
   12288]%N.

(** First code point of every run of ten decimal digits (general category
    Nd) of the Unicode Character Database 14.0, the table behind [\d] on a
    [str] pattern. *)
Definition decimal_runs : list N :=
  [48; 1632; 1776; 1984; 2406; 2534; 2662; 2790; 2918; 3046; 3174; 3302;
   3430; 3558; 3664; 3792; 3872; 4160; 4240; 6112; 6160; 6470; 6608; 6784;
   6800; 6992; 7088; 7232; 7248; 42528; 43216; 43264; 43472; 43504; 43600;
   44016; 65296; 66720; 68912; 69734; 69872; 69942; 70096; 70384; 70736;
   70864; 71248; 71360; 71472; 71904; 72016; 72784; 73040; 73120; 92768;
   92864; 93008; 120782; 120792; 120802; 120812; 120822; 123200; 123632;
   125264; 130032]%N.

Definition is_digit (c : char) : bool :=
  existsb (fun a => (a <=? c)%N && (c <? a + 10)%N) decimal_runs.

Definition ascii_digit (c : char) : bool := between 48 57 c.

Definition is_upper (c : char) : bool := between 65 90 c.
Definition is_lower (c : char) : bool := between 97 122 c.

(** The characters a literal [c] of a pattern compiled with [re.IGNORECASE]
    accepts: both cases of an ASCII letter, and the three code points
    outside ASCII that fold to i, s and k. *)
Definition ignorecase (c x : char) : bool :=
  let lo := if is_upper c then (c + 32)%N else c in
  if is_lower lo
  then (x =? lo)%N || (x =? lo - 32)%N
       || ((lo =? 105)%N && ((x =? 304)%N || (x =? 305)%N))
       || ((lo =? 115)%N && (x =? 383)%N)
       || ((lo =? 107)%N && (x =? 8490)%N)
  else (x =? c)%N.

(** [x in "67"] for a one-character string [x]. *)
Definition in_chars (x : char) (set : string) : bool :=
  existsb (N.eqb x) (py set).

Definition null (s : str) : bool := match s with [] => true | _ => false end.

Fixpoint startswith (p s : str) : bool :=
  match p, s with
  | [], _ => true
  | a :: p', b :: s' => (a =? b)%N && startswith p' s'
  | _ :: _, [] => false
  end.

Fixpoint lstrip (s : str) : str :=
  match s with
  | c :: s' => if is_space c then lstrip s' else s
  | [] => []
  end.

Definition rstrip (s : str) : str := rev (lstrip (rev s)).

Definition strip (s : str) : str := rstrip (lstrip s).

(** [s.replace(old, new)] for single characters. *)
Definition replace_char (old new : char) (s : str) : str :=
  map (fun c => if (c =? old)%N then new else c) s.

(** [s.replace(c, "")]. *)
Definition remove_char (old : char) (s : str) : str :=
  filter (fun c => negb (c =? old)%N) s.

(** [re.sub(r"\D", "", s)]. *)
Definition only_digits (s : str) : str := filter is_digit s.

(** [s[i]], used only under a guard on [len(s)]. *)
Definition at_ (s : str) (i : nat) : char := nth i s 0%N.

(** [s[-n:]]. *)
Definition last_n (n : nat) (s : str) : str := skipn (length s - n) s.

(** [s.rfind(sub)]: the highest index at which [sub] occurs. *)
Fixpoint rfind_from (sub s : str) (i : nat) : option nat :=
  match s with
  | [] => if null sub then Some i else None
  | _ :: s' =>
      match rfind_from sub s' (S i) with
      | Some j => Some j
      | None => if startswith sub s then Some i else None
      end
  end.

Definition rfind (s sub : str) : option nat := rfind_from sub s 0.

End Text.

Import Text.

(** ** Regular expressions *)

Module Regex.

(** The constructs the patterns of the page object are built from. *)
Inductive regex : Type :=
| Eps
| Chr (p : char -> bool)            (* a literal, a class, \d, \s *)
| Seq (r1 r2 : regex)
| Alt (r1 r2 : regex)               (* r1|r2 *)
| Opt (r : regex)                   (* r? *)
| Rep (p : char -> bool) (n : nat). (* p{n,}; p* is n = 0, p+ is n = 1 *)

(** Greedy repetition of a class: consume one more character first, stop
    here only when that fails and the lower bound is met. *)
Fixpoint rep {A} (p : char -> bool) (n : nat) (s : str)
    (k : str -> option A) : option A :=
  let stop := match n with O => k s | S _ => None end in
  match s with
  | c :: s' =>
      if p c
      then match rep p (pred n) s' k with
           | Some a => Some a
           | None => stop
           end
      else stop
  | [] => stop
  end.

(** [rmatch r s k]: match [r] at the head of [s] and pass the rest of the
    text to [k]; when [k] fails, backtrack into [r]. *)
Fixpoint rmatch {A} (r : regex) (s : str) (k : str -> option A) : option A :=
  match r with
  | Eps => k s
  | Chr p =>
      match s with
      | c :: s' => if p c then k s' else None
      | [] => None
      end
  | Seq r1 r2 => rmatch r1 s (fun s' => rmatch r2 s' k)
  | Alt r1 r2 =>
      match rmatch r1 s k with
      | Some a => Some a
      | None => rmatch r2 s k
      end
  | Opt r1 =>
      match rmatch r1 s k with
      | Some a => Some a
      | None => k s
      end
  | Rep p n => rep p n s k
  end.

(** What is left of [s] after the match of [r] at its head. *)
Definition match_rest (r : regex) (s : str) : option str :=
  rmatch r s (fun rest => Some rest).

(** The text of the match at the head of [s]. *)
Definition match_text (r : regex) (s : str) : option str :=
  option_map (fun rest => firstn (length s - length rest) s) (match_rest r s).

Definition matches_here (r : regex) (s : str) : bool :=
  match match_rest r s with Some _ => true | None => false end.

(** [r.search(s).start()], counted from [i]. *)
Fixpoint search_from (r : regex) (s : str) (i : nat) : option nat :=
  if matches_here r s then Some i
  else match s with
       | [] => None
       | _ :: s' => search_from r s' (S i)
       end.

Definition search_start (r : regex) (s : str) : option nat :=
  search_from r s 0.

(** [[m.group(0) for m in r.finditer(s)]]: the leftmost match, then the
    leftmost one that starts at or after its end, and so on.  [skip] is
    the number of characters of the last match still to pass. *)
Fixpoint finditer_from (r : regex) (s : str) (skip : nat) : list str :=
  match s with
  | [] => []
  | _ :: s' =>
      match skip with
      | S n => finditer_from r s' n
      | O =>
          match match_text r s with
          | Some m => m :: finditer_from r s' (pred (length m))
          | None => finditer_from r s' 0
          end
      end
  end.

Definition finditer (r : regex) (s : str) : list str := finditer_from r s 0.

(** A pattern [pre(grp)] whose only group closes the pattern:
    [re.search(pattern, s).group(1)]. *)
Fixpoint search_group (pre grp : regex) (s : str) : option str :=
  match rmatch pre s (fun s1 => match_text grp s1) with
  | Some g => Some g
  | None =>
      match s with
      | [] => None
      | _ :: s' => search_group pre grp s'
      end
  end.

Definition lit (c : char) : regex := Chr (N.eqb c).

(** A sequence of literal characters; under [re.IGNORECASE] with [ci]. *)
Fixpoint word (ci : bool) (w : str) : regex :=
  match w with
  | [] => Eps
  | c :: w' => Seq (Chr (if ci then ignorecase c else N.eqb c)) (word ci w')
  end.

Definition seqs (rs : list regex) : regex := fold_right Seq Eps rs.

(** The words of a regular expression, as a relation. *)
Inductive lang : regex -> str -> Prop :=
| LEps : lang Eps []
| LChr p c : p c = true -> lang (Chr p) [c]
| LSeq r1 r2 u v : lang r1 u -> lang r2 v -> lang (Seq r1 r2) (u ++ v)
| LAltL r1 r2 u : lang r1 u -> lang (Alt r1 r2) u
| LAltR r1 r2 u : lang r2 u -> lang (Alt r1 r2) u
| LOptS r u : lang r u -> lang (Opt r) u
| LOptN r : lang (Opt r) []
| LRep p n u : forallb p u = true -> n <= length u -> lang (Rep p n) u.

End Regex.

Import Regex.

(** ** The phonenumbers collaborator *)

Module Phonenumbers.

(** [phonenumbers.PhoneNumberType]. *)
Inductive PhoneNumberType : Type :=
| FIXED_LINE | MOBILE | FIXED_LINE_OR_MOBILE | TOLL_FREE | PREMIUM_RATE
| SHARED_COST | VOIP | PERSONAL_NUMBER | PAGER | UAN | VOICEMAIL | UNKNOWN.

(** The three functions of the library the page object calls.
    [parse tel] is [phonenumbers.parse(tel, None)]; [None] stands for the
    [NumberParseException] it raises. *)
Record library : Type := {
  PhoneNumber : Type;
  parse : str -> option PhoneNumber;
  is_valid_number : PhoneNumber -> bool;
  number_type : PhoneNumber -> PhoneNumberType
}.

Inductive exn : Type := ModuleNotFoundError.

Inductive outcome (A : Type) : Type :=
| Return (a : A)
| Raise (e : exn).

Arguments Raise {A} e.

(** [import phonenumbers] in an interpreter where the package is
    installed ([Some lib]) or not ([None]). *)
Definition import_phonenumbers (installed : option library)
    : outcome library :=
  match installed with
  | Some lib => Return lib
  | None => Raise ModuleNotFoundError
  end.

(** The module-level statements of lines 8 to 10: the value bound to the
    global name [phonenumbers] once the module has been executed;
    [None] is Python's [None]. *)
Definition module_globals (installed : option library)
    : outcome (option library) :=
  match import_phonenumbers installed with
  | Return lib => Return (Some lib)
  | Raise e => Raise e
  end.

(** Whether the module has loaded with [None] bound to [phonenumbers],
    the one state in which [_es_movil] takes its fallback. *)
Definition fallback_reachable (g : outcome (option library)) : bool :=
  match g with
  | Return None => true
  | _ => false
  end.

End Phonenumbers.

Import Phonenumbers.

(** ** The page object *)

Section EpacFichaPeritacionPage.

(** The characters of [\w] outside ASCII (the alphanumeric code points of
    the Unicode database). *)
Variable uni_word : char -> bool.

(** The value of the global name [phonenumbers]. *)
Variable phonenumbers : option library.

Definition is_word (c : char) : bool :=
  if (c <? 128)%N
  then ascii_digit c || is_upper c || is_lower c || (c =? 95)%N
  else uni_word c.

(** [[\d\s().,\-]] and [[0-9\s().,\-]]. *)
Definition sep (c : char) : bool :=
  is_space c || in_chars c "().,-".

Definition cand_class (c : char) : bool := is_digit c || sep c.
Definition field_class (c : char) : bool := ascii_digit c || sep c.
Definition field_head (c : char) : bool := (c =? 43)%N || ascii_digit c.

(** [(?:\+|00)?\s*\d[\d\s().,\-]{6,}\d] *)
Definition PHONE_CANDIDATE_RE : regex :=
  seqs [Opt (Alt (word false (py "+")) (word false (py "00")));
        Rep is_space 0; Chr is_digit; Rep cand_class 6; Chr is_digit].

(** [\n\s*-{10,}\s*\n], [\n\s*SINIESTROS\s*\n] and
    [\n\s*NUMERO\s+FECHA\s+RESERVA\s+], the last two with [re.IGNORECASE]. *)
Definition CUT_DASHES : regex :=
  seqs [lit NL; Rep is_space 0; Rep (N.eqb 45%N) 10; Rep is_space 0; lit NL].

Definition CUT_SINIESTROS : regex :=
  seqs [lit NL; Rep is_space 0; word true (py "SINIESTROS");
        Rep is_space 0; lit NL].

Definition CUT_NUMERO : regex :=
  seqs [lit NL; Rep is_space 0; word true (py "NUMERO"); Rep is_space 1;
        word true (py "FECHA"); Rep is_space 1; word true (py "RESERVA");
        Rep is_space 1].

Definition CUT_PATTERNS : list regex :=
  [CUT_DASHES; CUT_SINIESTROS; CUT_NUMERO].

Definition truthy (o : option str) : bool :=
  match o with
  | Some (_ :: _) => true
  | _ => false
  end.

Definition _normalizar_telefono (raw : str) : option str :=
  if null raw then None else
  let s := strip raw in
  let s := strip (replace_char NBSP 32%N s) in
  let after00 :=
    if startswith (py "00") s then
      let rest_digits := only_digits (skipn 2 s) in
      if (length rest_digits =? 9) && in_chars (at_ rest_digits 0) "67"
      then inl rest_digits
      else if (length rest_digits =? 9) && in_chars (at_ rest_digits 0) "89"
      then inl rest_digits
      else inr (py "+" ++ rest_digits)
    else inr s in
  match after00 with
  | inl tel => Some tel
  | inr s =>
      if startswith (py "+") s then
        let s := py "+" ++ only_digits (skipn 1 s) in
        if (8 <=? length s - 1) && (length s - 1 <=? 15) then Some s
        else None
      else
        let digits := only_digits s in
        if null digits then None else
        let digits :=
          if startswith (py "0") digits && (length digits =? 10)
             && in_chars (at_ digits 1) "6789"
          then skipn 1 digits else digits in
        if startswith (py "34") digits && (length digits =? 11)
           && in_chars (at_ digits 2) "6789"
        then Some (last_n 9 digits)
        else if length digits =? 9 then Some digits
        else if (8 <=? length digits) && (length digits <=? 15)
        then Some (py "+" ++ digits)
        else None
  end.

Definition _es_movil (tel_norm : str) : bool :=
  if null tel_norm then false else
  if negb (startswith (py "+") tel_norm)
  then (length tel_norm =? 9) && in_chars (at_ tel_norm 0) "67"
  else
    match phonenumbers with
    | None => true
    | Some lib =>
        match parse lib tel_norm with
        | None => false
        | Some num =>
            if negb (is_valid_number lib num) then false
            else match number_type lib num with
                 | MOBILE | FIXED_LINE_OR_MOBILE => true
                 | _ => false
                 end
        end
    end.

(** The body of the loop over the candidates: the number to return, or
    [None] to go on with the next candidate. *)
Definition probar_candidato (candidato : str) : option str :=
  match _normalizar_telefono candidato with
  | Some tel =>
      if null tel then None
      else if _es_movil tel then Some tel else None
  | None => None
  end.

Fixpoint primero {A B} (f : A -> option B) (l : list A) : option B :=
  match l with
  | [] => None
  | a :: l' => match f a with Some b => Some b | None => primero f l' end
  end.

Definition _extraer_numero_telefono (texto : str) : option str :=
  if null texto then None
  else primero probar_candidato (finditer PHONE_CANDIDATE_RE texto).

(** The loop over [CUT_PATTERNS]. *)
Definition cut_index (chunk : str) : option nat :=
  fold_left
    (fun cut_idx pat =>
       match search_start pat chunk with
       | Some start =>
           match cut_idx with
           | None => Some start
           | Some c => if start <? c then Some start else Some c
           end
       | None => cut_idx
       end)
    CUT_PATTERNS None.

(** The section of a chunk: cut, then at most 400 characters. *)
Definition seccion (chunk : str) : str :=
  let chunk :=
    match cut_index chunk with
    | Some i => firstn i chunk
    | None => chunk
    end in
  firstn 400 chunk.

Definition _buscar_en_seccion (texto etiqueta_seccion : str) : option str :=
  match rfind texto etiqueta_seccion with
  | None => None
  | Some pos =>
      let start := pos + length etiqueta_seccion in
      let chunk := skipn start texto in
      _extraer_numero_telefono (seccion chunk)
  end.

(** [re.split(r"\bHORA\b", valor, flags=re.IGNORECASE)[0]]: the text before
    the first match.  [prev] is the character before [s]. *)
Definition boundary (prev next : option char) : bool :=
  let w o := match o with Some c => is_word c | None => false end in
  xorb (w prev) (w next).

Definition hora_here (prev : option char) (s : str) : bool :=
  match s with
  | h :: o :: r :: a :: rest =>
      ignorecase 72%N h && ignorecase 79%N o && ignorecase 82%N r
      && ignorecase 65%N a
      && boundary prev (Some h) && boundary (Some a) (hd_error rest)
  | _ => false
  end.

Fixpoint before_hora (prev : option char) (s : str) : str :=
  match s with
  | [] => []
  | c :: s' => if hora_here prev s then [] else c :: before_hora (Some c) s'
  end.

(** [rf"{re.escape(campo_base)}\s*:?\s*([+0-9][0-9\s().,\-]{{6,}})"] with
    [re.IGNORECASE], as the part before the group and the group. *)
Definition campo_pre (campo_base : str) : regex :=
  seqs [word true campo_base; Rep is_space 0; Opt (lit 58%N);
        Rep is_space 0].

Definition campo_grp : regex := seqs [Chr field_head; Rep field_class 6].

Definition _buscar_campo_telef (texto campo : str) : option str :=
  let campo_base := strip (remove_char 58%N campo) in
  match search_group (campo_pre campo_base) campo_grp texto with
  | None => None
  | Some valor =>
      let valor := strip (before_hora None valor) in
      _extraer_numero_telefono valor
  end.

(** [extraer_telefono] from the text [_obtener_texto_ficha] returned. *)
Definition extraer_telefono (texto_completo : str) : option str :=
  if null texto_completo then None else
  let telefono := _buscar_en_seccion texto_completo (py "OBSERVACIONES MANUALES:") in
  if truthy telefono then telefono else
  let telefono := _buscar_en_seccion texto_completo (py "DESCRIPCION:") in
  if truthy telefono then telefono else
  let telefono := _buscar_campo_telef texto_completo (py "TELEF-1:") in
  if truthy telefono then telefono else
  let telefono := _buscar_campo_telef texto_completo (py "TELEF-2:") in
  if truthy telefono then telefono else
  None.

(** The four searches of [extraer_telefono], in its order. *)
Definition busquedas (texto : str) : list (option str) :=
  [_buscar_en_seccion texto (py "OBSERVACIONES MANUALES:");
   _buscar_en_seccion texto (py "DESCRIPCION:");
   _buscar_campo_telef texto (py "TELEF-1:");
   _buscar_campo_telef texto (py "TELEF-2:")].

End EpacFichaPeritacionPage.


(** ** Shapes of the numbers, in the words of the specification *)

Definition PLUS : char := 43%N.

Definition all_digits (s : str) : Prop := forallb is_digit s = true.

(** Nine digits. *)
Definition nine_digits (y : str) : Prop := length y = 9 /\ all_digits y.

(** A plus sign, then 8 to 15 digits. *)
Definition plus_digits (y : str) : Prop :=
  exists ds, y = PLUS :: ds /\ 8 <= length ds <= 15 /\ all_digits ds.

(** "A 9-digit Spanish national string with no leading zero": the leading
    zero is the part a result of the normalizer can fail. *)
Definition national_spec (y : str) : Prop :=
  nine_digits y /\ startswith (py "0") y = false.

(** The CanonicalNumber of the specification. *)
Definition canonical_spec (y : str) : Prop := national_spec y \/ plus_digits y.

(** A national mobile: nine digits, the first one 6 or 7. *)
Definition national_mobile (y : str) : Prop :=
  nine_digits y /\ (hd 0%N y = 54%N \/ hd 0%N y = 55%N).

(** The smaller of two optional positions. *)
Definition earliest (a b : option nat) : option nat :=
  match a, b with
  | Some x, Some y => Some (Nat.min x y)
  | Some x, None => Some x
  | None, _ => b
  end.

(** [w] is [pat] up to the case folding of [re.IGNORECASE]. *)
Definition ci_word (w pat : str) : Prop :=
  Forall2 (fun x c => ignorecase c x = true) w pat.

Definition spaces (ws : str) : Prop := forallb is_space ws = true.

(** The texts [\n\s*SINIESTROS\s*\n] matches at their head: a newline,
    then nothing but white space around the word up to a newline. *)
Definition siniestros_line (s : str) : Prop :=
  exists ws1 w ws2 rest,
    s = NL :: ws1 ++ w ++ ws2 ++ NL :: rest
    /\ spaces ws1 /\ ci_word w (py "SINIESTROS") /\ spaces ws2.

(** ** The scenarios of the specification *)

Definition OBSERVACIONES : str := py "OBSERVACIONES MANUALES:".
Definition DESCRIPCION : str := py "DESCRIPCION:".

Definition doc_telef1 : str := py "TELEF-1:00685789868".

Definition doc_telef2 : str := py "TELEF-2: 91234567".

Definition nota_antigua : str :=
  py "OBSERVACIONES MANUALES: contacto inicial 600111222. ".

Definition nota_nueva : str := py " actualizado, nuevo numero 611222333".

Definition doc_observaciones : str :=
  py "OBSERVACIONES MANUALES: contacto inicial 600111222. OBSERVACIONES MANUALES: actualizado, nuevo numero 611222333".

Definition tras_descripcion : str :=
  py " llamar al 612345678" ++ NL :: py "----------" ++ NL ::
  py "SINIESTROS" ++ NL :: py "999999999".

Definition doc_descripcion : str := DESCRIPCION ++ tras_descripcion.

(** The four labels, each with a mobile of its own. *)
Definition doc_prioridad : str :=
  py "TELEF-1: 622333444" ++ NL :: py "TELEF-2: 633444555" ++ NL ::
  py "DESCRIPCION: llamar 611222333" ++ NL ::
  py "OBSERVACIONES MANUALES: movil 600111222".

(** A remainder whose line with the word SINIESTROS holds other text. *)
Definition chunk_tabla : str :=
  py " llamar 612345678" ++ NL :: py "TABLA SINIESTROS 2020" ++ NL ::
  py "699999999".

(** A remainder with a line made of the word alone, in lower case. *)
Definition antes_tabla : str := py " nota 612345678".
Definition linea_tabla : str :=
  NL :: py "  siniestros " ++ NL :: py "699999999".

(** A library that parses nothing, and one for which every number is a
    valid mobile. *)
Definition reject_all : library :=
  {| PhoneNumber := unit;
     parse := fun _ => None;
     is_valid_number := fun _ => false;
     number_type := fun _ => UNKNOWN |}.

Definition accept_all : library :=
  {| PhoneNumber := unit;
     parse := fun _ => Some tt;
     is_valid_number := fun _ => true;
     number_type := fun _ => MOBILE |}.

Definition ascii_only : char -> bool := fun _ => false.

(** "A line containing the word [w]" starts after the newline at [i]. *)
Definition line_with (w chunk : str) (i : nat) : Prop :=
  exists a l1 l2 b,
    chunk = a ++ NL :: l1 ++ w ++ l2 ++ NL :: b
    /\ length a = i /\ ~ In NL l1 /\ ~ In NL l2.

(** ** The claim numbers and the normalizer of the extraction script

    [normalizar_siniestro] and [filtrar_siniestros_validos] prepare the
    list of claims whose record [extraer_telefono] reads
    (src/scripts/extraer_teléfonos_epac.py and
    src/peritoline/navigation_page.py); [normalizar_telefono] is the
    normalizer of the script. *)

Definition str_eqb (a b : str) : bool :=
  if list_eq_dec N.eq_dec a b then true else false.

(** [re.sub(r"\D", "", (s or "").strip())] *)
Definition normalizar_siniestro (s : str) : str := only_digits (strip s).

(** The loop of [filtrar_siniestros_validos]: [out] is the list built so
    far and [seen] the elements of the set. *)
Fixpoint filtrar_loop (min_len : Z) (lista out seen : list str) : list str :=
  match lista with
  | [] => out
  | s :: lista' =>
      let x := normalizar_siniestro s in
      if (Z.of_nat (length x) <? min_len)%Z
      then filtrar_loop min_len lista' out seen
      else if negb (existsb (str_eqb x) seen)
      then filtrar_loop min_len lista' (out ++ [x]) (x :: seen)
      else filtrar_loop min_len lista' out seen
  end.

Definition filtrar_siniestros_validos (lista : list str) (min_len : Z)
    : list str :=
  filtrar_loop min_len lista [] [].

(** [normalizar_telefono] of src/scripts/extraer_teléfonos_epac.py. *)
Definition normalizar_telefono (s : str) : option str :=
  if null s then None else
  let digits :=
    if startswith (py "+") s then py "+" ++ only_digits (skipn 1 s)
    else only_digits s in
  if str_eqb digits [] || str_eqb digits (py "+") then None else
  let with34 :=
    if startswith (py "+34") digits then
      let rest := skipn 3 digits in
      if (length rest =? 9) && in_chars (at_ rest 0) "6789"
      then Some rest else None
    else None in
  match with34 with
  | Some rest => Some rest
  | None =>
      if negb (startswith (py "+") digits) && startswith (py "34") digits
         && (length digits =? 11) && in_chars (at_ digits 2) "6789"
      then Some (last_n 9 digits)
      else if negb (startswith (py "+") digits) && (length digits =? 10)
              && startswith (py "0") digits && in_chars (at_ digits 1) "6789"
      then Some (skipn 1 digits)
      else if negb (startswith (py "+") digits) && (length digits =? 9)
              && in_chars (at_ digits 0) "6789"
      then Some digits
      else if startswith (py "+") digits then
        if (10 <=? length digits - 1) && (length digits - 1 <=? 15)
        then Some digits else None
      else if (10 <=? length digits) && (length digits <=? 15)
      then Some digits
      else None
  end.

(** ** Further shapes *)

(** [c] occurs in [s]. *)
Definition infix_of (c s : str) : Prop := exists a b, s = a ++ c ++ b.

(** Nine digits of which the first is 6, 7, 8 or 9. *)
Definition spanish_number (ds : str) : Prop :=
  nine_digits ds /\ in_chars (hd 0%N ds) "6789" = true.

(** The texts [\n\s*-{10,}\s*\n] matches at their head. *)
Definition dashes_line (s : str) : Prop :=
  exists ws1 n ws2 rest,
    s = NL :: ws1 ++ repeat 45%N n ++ ws2 ++ NL :: rest
    /\ spaces ws1 /\ 10 <= n /\ spaces ws2.

(** The texts [\n\s*NUMERO\s+FECHA\s+RESERVA\s+] matches at their head. *)
Definition numero_header (s : str) : Prop :=
  exists ws0 w1 ws1 w2 ws2 w3 ws3 rest,
    s = NL :: ws0 ++ w1 ++ ws1 ++ w2 ++ ws2 ++ w3 ++ ws3 ++ rest
    /\ spaces ws0 /\ ci_word w1 (py "NUMERO")
    /\ spaces ws1 /\ ws1 <> [] /\ ci_word w2 (py "FECHA")
    /\ spaces ws2 /\ ws2 <> [] /\ ci_word w3 (py "RESERVA")
    /\ spaces ws3 /\ ws3 <> [].

(** The shape of a candidate of [PHONE_CANDIDATE_RE]: an optional + or
    00, white space, a digit, six or more digits and separators, a
    digit. *)
Definition candidate_shape (c : str) : Prop :=
  exists prefix ws d1 mid d2,
    c = prefix ++ ws ++ d1 :: mid ++ [d2]
    /\ (prefix = [] \/ prefix = py "+" \/ prefix = py "00")
    /\ spaces ws /\ is_digit d1 = true
    /\ forallb cand_class mid = true
    /\ 6 <= length mid /\ is_digit d2 = true.

(** The shape of the value the pattern of a field captures: a plus sign
    or an ASCII digit, then six or more ASCII digits and separators. *)
Definition field_value_shape (v : str) : Prop :=
  exists h t,
    v = h :: t /\ (h = PLUS \/ ascii_digit h = true)
    /\ forallb field_class t = true
    /\ 6 <= length t.

(** The text after a field value: nothing, or a character the group of
    the pattern does not take. *)
Definition ends_value (rest : str) : Prop :=
  match rest with
  | [] => True
  | c :: _ => field_class c = false
  end.

(** [s] is empty or begins with a character outside the class [p]. *)
Definition stops (p : char -> bool) (s : str) : Prop :=
  match s with
  | [] => True
  | c :: _ => p c = false
  end.


(** The first occurrence of every element, in order. *)
Fixpoint primeras (l : list str) : list str :=
  match l with
  | [] => []
  | x :: l' => x :: filter (fun y => negb (str_eqb x y)) (primeras l')
  end.

(** [len(x) >= min_len]. *)
Definition largo (min_len : Z) (x : str) : bool :=
  negb (Z.of_nat (length x) <? min_len)%Z.

(** The set [seen] holds the elements of the list [out]. *)
Definition same_set (seen out : list str) : Prop :=
  forall x, In x seen <-> In x out.

(** ** The digits 0 to 9

    The shapes of a returned number with the digits 0 to 9 in the place
    of the class [\d]. *)

Definition digits_09 (s : str) : Prop := forallb ascii_digit s = true.

Definition national_mobile_09 (y : str) : Prop :=
  length y = 9 /\ digits_09 y /\ (hd 0%N y = 54%N \/ hd 0%N y = 55%N).

Definition plus_digits_09 (y : str) : Prop :=
  exists ds, y = PLUS :: ds /\ 8 <= length ds <= 15 /\ digits_09 ds.

(** The digit 6 followed by the Arabic-Indic digits 1 to 8 (U+0661 to
    U+0668), and a record whose description holds them. *)
Definition seis_arabigo : str :=
  [54; 1633; 1634; 1635; 1636; 1637; 1638; 1639; 1640]%N.

Definition doc_arabigo : str := DESCRIPCION ++ py " " ++ seis_arabigo.

(** ** Characters *)

Unset Implicit Arguments.

Arguments is_digit : simpl never.
Arguments is_space : simpl never.

Lemma is_space_points c : is_space c = true -> In c space_points.
Proof.
  unfold is_space, between, space_points.
  rewrite !orb_true_iff, !andb_true_iff, !N.leb_le, !N.eqb_eq.
  intros H. simpl. lia.
Qed.

Lemma space_points_not_digits :
  forallb (fun c => negb (is_digit c)) space_points = true.
Proof. vm_compute. reflexivity. Qed.

Lemma digit_not_space c : is_digit c = true -> is_space c = false.
Proof.
  intros Hd. destruct (is_space c) eqn:Hs; [|reflexivity].
  apply is_space_points in Hs.
  pose proof (proj1 (forallb_forall _ _) space_points_not_digits c Hs) as H.
  cbv beta in H. rewrite Hd in H. discriminate.
Qed.

Lemma plus_not_digit : is_digit PLUS = false.
Proof. reflexivity. Qed.

Lemma digit_not_plus c : is_digit c = true -> (c =? PLUS)%N = false.
Proof.
  intros Hd. destruct (N.eqb_spec c PLUS) as [->|]; [|reflexivity].
  rewrite plus_not_digit in Hd. discriminate.
Qed.

Lemma digit_not_nbsp c : is_digit c = true -> (c =? NBSP)%N = false.
Proof.
  intros Hd. destruct (N.eqb_spec c NBSP) as [->|]; [|reflexivity].
  apply digit_not_space in Hd. discriminate.
Qed.

(** ** Strings *)

Lemma lstrip_head c s : is_space c = false -> lstrip (c :: s) = c :: s.
Proof. intros H. simpl. now rewrite H. Qed.

Lemma strip_no_space s :
  forallb (fun c => negb (is_space c)) s = true -> strip s = s.
Proof.
  intros H. unfold strip, rstrip.
  assert (Hl : forall l, forallb (fun c => negb (is_space c)) l = true ->
                         lstrip l = l).
  { intros [|c l] Hc; [reflexivity|]. simpl in Hc.
    apply andb_true_iff in Hc as [Hc _]. apply negb_true_iff in Hc.
    now apply lstrip_head. }
  rewrite (Hl s H), Hl, rev_involutive; [reflexivity|].
  apply forallb_forall. intros x Hx. apply in_rev in Hx.
  exact (proj1 (forallb_forall _ _) H x Hx).
Qed.

Lemma replace_char_absent old new s :
  forallb (fun c => negb (c =? old)%N) s = true -> replace_char old new s = s.
Proof.
  induction s as [|c s IH]; simpl; [reflexivity|].
  intros H. apply andb_true_iff in H as [Hc Hs].
  apply negb_true_iff in Hc. rewrite Hc. f_equal. auto.
Qed.

Lemma only_digits_all s : all_digits (only_digits s).
Proof.
  unfold all_digits, only_digits. apply forallb_forall.
  intros x Hx. now apply filter_In in Hx.
Qed.

Lemma only_digits_fixed s : all_digits s -> only_digits s = s.
Proof.
  unfold all_digits, only_digits. induction s as [|c s IH]; simpl.
  - reflexivity.
  - intros H. apply andb_true_iff in H as [Hc Hs]. rewrite Hc. f_equal. auto.
Qed.

Lemma all_digits_skipn n s : all_digits s -> all_digits (skipn n s).
Proof.
  unfold all_digits. intros H. apply forallb_forall. intros x Hx.
  apply (proj1 (forallb_forall _ _) H).
  rewrite <- (firstn_skipn n s). apply in_or_app. now right.
Qed.

Lemma all_digits_no_space s :
  all_digits s -> forallb (fun c => negb (is_space c)) s = true.
Proof.
  unfold all_digits. intros H. apply forallb_forall. intros x Hx.
  apply negb_true_iff, digit_not_space.
  exact (proj1 (forallb_forall _ _) H x Hx).
Qed.

Lemma all_digits_no_nbsp s :
  all_digits s -> forallb (fun c => negb (c =? NBSP)%N) s = true.
Proof.
  unfold all_digits. intros H. apply forallb_forall. intros x Hx.
  apply negb_true_iff, digit_not_nbsp.
  exact (proj1 (forallb_forall _ _) H x Hx).
Qed.

(** ** The normalizer *)

Ltac break_if H :=
  match type of H with
  | context [if ?b then _ else _] =>
      let E := fresh "E" in destruct b eqn:E
  end.

Lemma plus_cons_shape ds :
  all_digits ds ->
  (8 <=? length (PLUS :: ds) - 1) && (length (PLUS :: ds) - 1 <=? 15) = true ->
  plus_digits (PLUS :: ds).
Proof.
  intros Hd Hl. exists ds. split; [reflexivity|]. split; [|exact Hd].
  change (length (PLUS :: ds) - 1) with (length ds - 0) in Hl.
  rewrite Nat.sub_0_r in Hl.
  apply andb_true_iff in Hl as [H1 H2].
  apply Nat.leb_le in H1, H2. lia.
Qed.

(** Every result of the normalizer is nine digits, or a plus sign and 8 to
    15 digits. *)
Lemma normalizar_shape raw y :
  _normalizar_telefono raw = Some y -> nine_digits y \/ plus_digits y.
Proof.
  unfold _normalizar_telefono.
  destruct (null raw); [discriminate|].
  set (s := strip (replace_char NBSP 32%N (strip raw))).
  change (py "+") with [PLUS].
  destruct (startswith (py "00") s) eqn:E00.
  - set (rest := only_digits (skipn 2 s)).
    assert (Hrest : all_digits rest) by apply only_digits_all.
    destruct (length rest =? 9) eqn:E9; simpl andb; cbv iota.
    + apply Nat.eqb_eq in E9.
      destruct (in_chars (at_ rest 0) "67").
      * intros [= <-]. left. now split.
      * destruct (in_chars (at_ rest 0) "89").
        -- intros [= <-]. left. now split.
        -- simpl. rewrite (only_digits_fixed _ Hrest), E9. simpl.
           intros [= <-]. right. exists rest. repeat split; trivial; lia.
    + simpl. rewrite (only_digits_fixed _ Hrest). intros H.
      break_if H; [|discriminate]. injection H as <-.
      right. now apply plus_cons_shape.
  - destruct (startswith [PLUS] s) eqn:EP.
    + intros H. break_if H; [|discriminate]. injection H as <-.
      right. apply plus_cons_shape; [apply only_digits_all|exact E].
    + set (digits := only_digits s).
      assert (Hd : all_digits digits) by apply only_digits_all.
      destruct (null digits); [discriminate|].
      match goal with
      | |- context [if ?b then skipn 1 digits else digits] =>
          set (digits' := if b then skipn 1 digits else digits)
      end.
      assert (Hd' : all_digits digits').
      { subst digits'. destruct (_ && _); [now apply all_digits_skipn|easy]. }
      clearbody digits'. intros H.
      break_if H.
      * injection H as <-. left.
        apply andb_true_iff in E as [E _]. apply andb_true_iff in E as [_ E].
        apply Nat.eqb_eq in E. unfold last_n. split.
        -- rewrite length_skipn. lia.
        -- now apply all_digits_skipn.
      * break_if H.
        -- injection H as <-. left. apply Nat.eqb_eq in E0. now split.
        -- break_if H; [|discriminate]. injection H as <-.
           right. exists digits'. split; [reflexivity|]. split; [|exact Hd'].
           apply andb_true_iff in E1 as [H1 H2].
           apply Nat.leb_le in H1, H2. lia.
Qed.

(** A result of nine digits that does not begin with 00 is kept. *)
Lemma normalizar_nine y :
  nine_digits y -> startswith (py "00") y = false ->
  _normalizar_telefono y = Some y.
Proof.
  intros [Hl Hd] H00. unfold _normalizar_telefono. cbv zeta.
  destruct y as [|c y']; [discriminate|]. cbv beta iota delta [null].
  rewrite (strip_no_space _ (all_digits_no_space _ Hd)).
  rewrite (replace_char_absent _ _ _ (all_digits_no_nbsp _ Hd)).
  rewrite (strip_no_space _ (all_digits_no_space _ Hd)).
  rewrite H00.
  assert (Hc : is_digit c = true).
  { unfold all_digits in Hd. simpl in Hd. now apply andb_true_iff in Hd. }
  assert (HP : startswith (py "+") (c :: y') = false).
  { change (startswith (py "+") (c :: y')) with ((PLUS =? c)%N && true).
    now rewrite N.eqb_sym, (digit_not_plus _ Hc). }
  rewrite HP, (only_digits_fixed _ Hd), Hl.
  change (9 =? 10) with false. change (9 =? 11) with false.
  rewrite andb_false_r, andb_false_l. cbv iota.
  rewrite Hl, andb_false_r, andb_false_l. reflexivity.
Qed.

(** A plus sign and 8 to 15 digits is kept. *)
Lemma normalizar_plus y : plus_digits y -> _normalizar_telefono y = Some y.
Proof.
  intros (ds & -> & Hl & Hd). unfold _normalizar_telefono. cbv zeta.
  cbv beta iota delta [null].
  assert (Hns : forallb (fun c => negb (is_space c)) (PLUS :: ds) = true).
  { simpl. now rewrite (all_digits_no_space _ Hd). }
  assert (Hnb : forallb (fun c => negb (c =? NBSP)%N) (PLUS :: ds) = true).
  { simpl. now rewrite (all_digits_no_nbsp _ Hd). }
  rewrite (strip_no_space _ Hns), (replace_char_absent _ _ _ Hnb),
    (strip_no_space _ Hns).
  change (startswith (py "00") (PLUS :: ds)) with false.
  change (startswith (py "+") (PLUS :: ds)) with true.
  cbv iota. change (skipn 1 (PLUS :: ds)) with ds.
  rewrite (only_digits_fixed _ Hd).
  change (py "+" ++ ds) with (PLUS :: ds).
  change (length (PLUS :: ds) - 1) with (length ds - 0).
  rewrite Nat.sub_0_r.
  destruct Hl as [H1 H2].
  apply Nat.leb_le in H1, H2. now rewrite H1, H2.
Qed.

(** A result of nine digits that begins with 00 is rejected when
    normalized again. *)
Lemma normalizar_nine_00 y :
  nine_digits y -> startswith (py "00") y = true ->
  _normalizar_telefono y = None.
Proof.
  intros [Hl Hd] H00. unfold _normalizar_telefono. cbv zeta.
  destruct y as [|c y']; [discriminate|]. cbv beta iota delta [null].
  rewrite (strip_no_space _ (all_digits_no_space _ Hd)).
  rewrite (replace_char_absent _ _ _ (all_digits_no_nbsp _ Hd)).
  rewrite (strip_no_space _ (all_digits_no_space _ Hd)).
  rewrite H00.
  rewrite (only_digits_fixed _ (all_digits_skipn 2 _ Hd)).
  set (r := skipn 2 (c :: y')).
  assert (H7 : length r = 7) by (subst r; rewrite length_skipn; simpl in *; lia).
  assert (Hr : all_digits r) by (subst r; now apply all_digits_skipn).
  clearbody r. rewrite H7. change (7 =? 9) with false.
  rewrite !andb_false_l. cbv iota.
  change (startswith (py "+") (py "+" ++ r)) with true. cbv iota.
  change (skipn 1 (py "+" ++ r)) with r.
  rewrite (only_digits_fixed _ Hr).
  change (length (py "+" ++ r) - 1) with (length r - 0).
  rewrite Nat.sub_0_r, H7. reflexivity.
Qed.

(** ** The classifier and the loop over the candidates *)

Lemma in_chars_67 c : in_chars c "67" = true -> c = 54%N \/ c = 55%N.
Proof.
  unfold in_chars. change (py "67") with [54%N; 55%N]. cbv [existsb].
  destruct (N.eqb_spec c 54); [auto|].
  destruct (N.eqb_spec c 55); [auto|discriminate].
Qed.

Lemma primero_some {A B} (f : A -> option B) l b :
  primero f l = Some b -> exists a, In a l /\ f a = Some b.
Proof.
  induction l as [|a l IH]; simpl; [discriminate|].
  destruct (f a) eqn:Ea.
  - intros [= <-]. exists a. auto.
  - intros H. destruct (IH H) as (a' & Hin & Ha'). exists a'. auto.
Qed.

Section Classifier.

Variable uni_word : char -> bool.
Variable phonenumbers : option library.

Lemma es_movil_national tel :
  _es_movil phonenumbers tel = true -> startswith (py "+") tel = false ->
  length tel = 9 /\ (hd 0%N tel = 54%N \/ hd 0%N tel = 55%N).
Proof.
  unfold _es_movil. destruct tel as [|c tel']; [discriminate|].
  cbv beta iota delta [null]. intros H HP. rewrite HP in H.
  cbv beta iota delta [negb] in H.
  apply andb_true_iff in H as [H9 H67]. apply Nat.eqb_eq in H9.
  split; [exact H9|]. now apply in_chars_67.
Qed.

Lemma probar_candidato_some cand tel :
  probar_candidato phonenumbers cand = Some tel ->
  _normalizar_telefono cand = Some tel /\ null tel = false
  /\ _es_movil phonenumbers tel = true.
Proof.
  unfold probar_candidato.
  destruct (_normalizar_telefono cand) as [t|]; [|discriminate].
  destruct (null t) eqn:En; [discriminate|].
  destruct (_es_movil phonenumbers t) eqn:Em; [|discriminate].
  intros [= <-]. auto.
Qed.

(** What [_extraer_numero_telefono] returns is the normal form of one of
    the candidates of the text, and the classifier accepted it. *)
Lemma extraer_numero_some texto tel :
  _extraer_numero_telefono phonenumbers texto = Some tel ->
  exists cand, In cand (finditer PHONE_CANDIDATE_RE texto)
    /\ _normalizar_telefono cand = Some tel /\ null tel = false
    /\ _es_movil phonenumbers tel = true.
Proof.
  unfold _extraer_numero_telefono. destruct (null texto); [discriminate|].
  intros H. apply primero_some in H as (cand & Hin & Hc).
  exists cand. split; [exact Hin|]. now apply probar_candidato_some.
Qed.

Lemma extraer_numero_truthy texto tel :
  _extraer_numero_telefono phonenumbers texto = Some tel ->
  truthy (Some tel) = true.
Proof.
  intros H. apply extraer_numero_some in H as (_ & _ & _ & Hn & _).
  destruct tel; [discriminate|reflexivity].
Qed.

Lemma buscar_en_seccion_some texto etiqueta tel :
  _buscar_en_seccion phonenumbers texto etiqueta = Some tel ->
  exists chunk, _extraer_numero_telefono phonenumbers chunk = Some tel.
Proof.
  unfold _buscar_en_seccion. destruct (rfind texto etiqueta); [|discriminate].
  intros H. eauto.
Qed.

Lemma buscar_campo_telef_some texto campo tel :
  _buscar_campo_telef uni_word phonenumbers texto campo = Some tel ->
  exists valor, _extraer_numero_telefono phonenumbers valor = Some tel.
Proof.
  unfold _buscar_campo_telef. destruct (search_group _ _ texto); [|discriminate].
  intros H. eauto.
Qed.

Lemma truthy_seccion texto etiqueta :
  truthy (_buscar_en_seccion phonenumbers texto etiqueta)
  = match _buscar_en_seccion phonenumbers texto etiqueta with
    | Some _ => true
    | None => false
    end.
Proof.
  destruct (_buscar_en_seccion phonenumbers texto etiqueta) as [t|] eqn:E;
    [|reflexivity].
  apply buscar_en_seccion_some in E as (chunk & E).
  now apply extraer_numero_truthy in E.
Qed.

Lemma truthy_campo texto campo :
  truthy (_buscar_campo_telef uni_word phonenumbers texto campo)
  = match _buscar_campo_telef uni_word phonenumbers texto campo with
    | Some _ => true
    | None => false
    end.
Proof.
  destruct (_buscar_campo_telef uni_word phonenumbers texto campo) as [t|] eqn:E;
    [|reflexivity].
  apply buscar_campo_telef_some in E as (valor & E).
  now apply extraer_numero_truthy in E.
Qed.

Lemma extraer_telefono_primero texto :
  extraer_telefono uni_word phonenumbers texto
  = primero (fun r => r) (busquedas uni_word phonenumbers texto).
Proof.
  unfold extraer_telefono, busquedas. cbv zeta.
  destruct texto as [|c texto']; [reflexivity|].
  cbv beta iota delta [null primero].
  rewrite !truthy_seccion, !truthy_campo.
  repeat match goal with
         | |- context [match ?x with Some _ => _ | None => _ end] =>
             destruct x; try reflexivity
         end.
Qed.

Lemma extraer_telefono_some texto tel :
  extraer_telefono uni_word phonenumbers texto = Some tel ->
  exists cand, _normalizar_telefono cand = Some tel
    /\ _es_movil phonenumbers tel = true.
Proof.
  rewrite extraer_telefono_primero. intros H.
  apply primero_some in H as (r & Hin & ->).
  assert (exists t, _extraer_numero_telefono phonenumbers t = Some tel)
    as (t & Ht).
  { unfold busquedas in Hin. simpl in Hin.
    destruct Hin as [H|[H|[H|[H|[]]]]];
      first [ exact (buscar_en_seccion_some _ _ _ H)
            | exact (buscar_campo_telef_some _ _ _ H) ]. }
  apply extraer_numero_some in Ht as (cand & _ & Hn & _ & Hm). eauto.
Qed.

End Classifier.

(** ** The matcher against the language of a pattern *)

Lemma rep_sound {A} p n s (k : str -> option A) a :
  rep p n s k = Some a ->
  exists u v, s = u ++ v /\ forallb p u = true /\ n <= length u
              /\ k v = Some a.
Proof.
  revert n. induction s as [|c s IH]; intros n H.
  - destruct n; [|discriminate]. exists [], []. auto.
  - simpl in H.
    assert (Hstop : match n with 0 => k (c :: s) | S _ => None end = Some a ->
                    exists u v, c :: s = u ++ v /\ forallb p u = true
                                /\ n <= length u /\ k v = Some a).
    { destruct n; [|discriminate]. intros Hk. exists [], (c :: s). auto. }
    destruct (p c) eqn:Hp; [|auto].
    destruct (rep p (pred n) s k) as [a'|] eqn:Hr; [|auto].
    injection H as ->.
    destruct (IH _ Hr) as (u & v & -> & Hu & Hn & Hk).
    exists (c :: u), v. simpl. rewrite Hp, Hu. repeat split; trivial. lia.
Qed.

Lemma rep_complete {A} p n u v (k : str -> option A) a :
  forallb p u = true -> n <= length u -> k v = Some a ->
  exists a', rep p n (u ++ v) k = Some a'.
Proof.
  revert n. induction u as [|c u IH]; intros n Hu Hn Hk.
  - simpl in Hn. assert (n = 0) as -> by lia.
    destruct v as [|c v]; simpl; [eauto|].
    destruct (p c); [|eauto].
    destruct (rep p 0 v k); eauto.
  - simpl in Hu. apply andb_true_iff in Hu as [Hc Hu].
    simpl. rewrite Hc.
    destruct (IH (pred n) Hu) as (a' & ->); [simpl in Hn; lia|exact Hk|].
    eauto.
Qed.

(** The matcher only finds words of the pattern. *)
Lemma rmatch_sound {A} r : forall s (k : str -> option A) a,
  rmatch r s k = Some a ->
  exists u v, s = u ++ v /\ lang r u /\ k v = Some a.
Proof.
  induction r as [|p|r1 IH1 r2 IH2|r1 IH1 r2 IH2|r1 IH1|p n];
    intros s k a H; simpl in H.
  - exists [], s. repeat split; [constructor|exact H].
  - destruct s as [|c s]; [discriminate|].
    destruct (p c) eqn:Hp; [|discriminate].
    exists [c], s. repeat split; [now constructor|exact H].
  - apply IH1 in H as (u1 & v1 & -> & L1 & H).
    apply IH2 in H as (u2 & v2 & -> & L2 & H).
    exists (u1 ++ u2), v2. rewrite <- app_assoc.
    repeat split; [now constructor|exact H].
  - destruct (rmatch r1 s k) as [a1|] eqn:E1.
    + injection H as ->. apply IH1 in E1 as (u & v & -> & L & Hk).
      exists u, v. repeat split; [now apply LAltL|exact Hk].
    + apply IH2 in H as (u & v & -> & L & Hk).
      exists u, v. repeat split; [now apply LAltR|exact Hk].
  - destruct (rmatch r1 s k) as [a1|] eqn:E1.
    + injection H as ->. apply IH1 in E1 as (u & v & -> & L & Hk).
      exists u, v. repeat split; [now apply LOptS|exact Hk].
    + exists [], s. repeat split; [apply LOptN|exact H].
  - apply rep_sound in H as (u & v & -> & Hu & Hn & Hk).
    exists u, v. repeat split; [now constructor|exact Hk].
Qed.

(** Whenever a word of the pattern heads the text and the continuation
    accepts what follows it, the matcher succeeds. *)
Lemma rmatch_complete {A} r u :
  lang r u ->
  forall v (k : str -> option A) a, k v = Some a ->
  exists a', rmatch r (u ++ v) k = Some a'.
Proof.
  induction 1 as [|p c Hp|r1 r2 u1 u2 _ IH1 _ IH2|r1 r2 u _ IH|r1 r2 u _ IH
                 |r u _ IH|r|p n u Hu Hn]; intros v k a Hk; simpl.
  - eauto.
  - rewrite Hp. eauto.
  - rewrite <- app_assoc.
    destruct (IH2 v k a Hk) as (a2 & H2).
    exact (IH1 (u2 ++ v) (fun s' => rmatch r2 s' k) a2 H2).
  - destruct (IH v k a Hk) as (a' & ->). eauto.
  - destruct (rmatch r1 (u ++ v) k); [eauto|]. exact (IH v k a Hk).
  - destruct (IH v k a Hk) as (a' & ->). eauto.
  - destruct (rmatch r v k); eauto.
  - exact (rep_complete p n u v k a Hu Hn Hk).
Qed.

(** A pattern matches at the head of a text exactly when a word of its
    language heads the text. *)
Lemma matches_here_iff r s :
  matches_here r s = true <-> exists u v, s = u ++ v /\ lang r u.
Proof.
  unfold matches_here, match_rest. split.
  - destruct (rmatch r s (fun rest => Some rest)) as [rest|] eqn:E;
      [|discriminate].
    intros _. apply rmatch_sound in E as (u & v & -> & L & _). eauto.
  - intros (u & v & -> & L).
    destruct (rmatch_complete r u L v (fun rest => Some rest) v eq_refl)
      as (a' & ->).
    reflexivity.
Qed.

(** [search_from] returns the least position with a match. *)
Lemma search_from_some r s : forall i j,
  search_from r s i = Some j ->
  i <= j /\ j - i <= length s
  /\ matches_here r (skipn (j - i) s) = true
  /\ forall m, m < j - i -> matches_here r (skipn m s) = false.
Proof.
  induction s as [|c s IH]; intros i j H; simpl in H.
  - destruct (matches_here r []) eqn:E; [|discriminate].
    injection H as <-. rewrite Nat.sub_diag. simpl.
    repeat split; trivial. intros m Hm. lia.
  - destruct (matches_here r (c :: s)) eqn:E.
    + injection H as <-. rewrite Nat.sub_diag. simpl.
      repeat split; trivial; lia.
    + apply IH in H as (Hij & Hl & Hm & Hmin).
      replace (j - i) with (S (j - S i)) by lia. simpl.
      repeat split; trivial; try lia.
      intros [|m] Hlt; [exact E|]. simpl. apply Hmin. lia.
Qed.

Lemma search_from_none r s : forall i,
  search_from r s i = None ->
  forall m, matches_here r (skipn m s) = false.
Proof.
  induction s as [|c s IH]; intros i H m; simpl in H.
  - destruct (matches_here r []) eqn:E; [discriminate|].
    now rewrite skipn_nil.
  - destruct (matches_here r (c :: s)) eqn:E; [discriminate|].
    destruct m as [|m]; [exact E|]. simpl. exact (IH _ H m).
Qed.

Lemma search_from_found r s : forall i m,
  matches_here r (skipn m s) = true ->
  exists j, search_from r s i = Some j /\ j <= i + m.
Proof.
  intros i m Hm. destruct (search_from r s i) as [j|] eqn:E.
  - exists j. split; [reflexivity|].
    apply search_from_some in E as (Hij & _ & _ & Hmin).
    destruct (Nat.le_gt_cases j (i + m)) as [|Hgt]; [assumption|].
    rewrite (Hmin m) in Hm; [discriminate|lia].
  - rewrite (search_from_none r s i E m) in Hm. discriminate.
Qed.

(** ** The cut patterns *)

Lemma lang_eps_inv u : lang Eps u -> u = [].
Proof. now inversion 1. Qed.

Lemma lang_chr_inv p u : lang (Chr p) u -> exists c, u = [c] /\ p c = true.
Proof. inversion 1; subst. eauto. Qed.

Lemma lang_seq_inv r1 r2 u :
  lang (Seq r1 r2) u ->
  exists u1 u2, u = u1 ++ u2 /\ lang r1 u1 /\ lang r2 u2.
Proof. inversion 1; subst. eauto. Qed.

Lemma lang_rep_inv p n u :
  lang (Rep p n) u -> forallb p u = true /\ n <= length u.
Proof. inversion 1; subst. auto. Qed.

Lemma lang_word_ci pat : forall w, lang (word true pat) w <-> ci_word w pat.
Proof.
  unfold ci_word. induction pat as [|c pat IH]; intros w; simpl.
  - split.
    + intros H. apply lang_eps_inv in H as ->. constructor.
    + inversion 1. constructor.
  - split.
    + intros H. apply lang_seq_inv in H as (u1 & u2 & -> & H1 & H2).
      apply lang_chr_inv in H1 as (x & -> & Hx).
      simpl. constructor; [exact Hx|now apply IH].
    + inversion 1 as [|x c' w' pat' Hx Hw]; subst.
      change (x :: w') with ([x] ++ w').
      constructor; [now constructor|now apply IH].
Qed.

Lemma siniestros_line_iff s :
  matches_here CUT_SINIESTROS s = true <-> siniestros_line s.
Proof.
  rewrite matches_here_iff. unfold siniestros_line, spaces.
  cbv [CUT_SINIESTROS seqs fold_right lit]. split.
  - intros (u & v & -> & L).
    apply lang_seq_inv in L as (u1 & r1 & -> & L1 & L).
    apply lang_seq_inv in L as (u2 & r2 & -> & L2 & L).
    apply lang_seq_inv in L as (u3 & r3 & -> & L3 & L).
    apply lang_seq_inv in L as (u4 & r4 & -> & L4 & L).
    apply lang_seq_inv in L as (u5 & r5 & -> & L5 & L).
    apply lang_eps_inv in L as ->.
    apply lang_chr_inv in L1 as (c1 & -> & H1).
    apply lang_chr_inv in L5 as (c5 & -> & H5).
    apply N.eqb_eq in H1, H5. subst c1 c5.
    apply lang_rep_inv in L2 as [H2 _]. apply lang_rep_inv in L4 as [H4 _].
    apply lang_word_ci in L3.
    exists u2, u3, u4, v. repeat split; trivial.
    simpl. now rewrite <- !app_assoc.
  - intros (ws1 & w & ws2 & rest & -> & H1 & Hw & H2).
    exists ([NL] ++ ws1 ++ w ++ ws2 ++ [NL] ++ []), rest. split.
    + simpl. now rewrite <- !app_assoc.
    + repeat (apply LSeq);
        first [ apply LChr; apply N.eqb_refl
              | apply LRep; [assumption|apply Nat.le_0_l]
              | now apply lang_word_ci
              | apply LEps ].
Qed.

Lemma earliest_some a b i :
  earliest a b = Some i ->
  (a = Some i \/ b = Some i)
  /\ (forall x, a = Some x -> i <= x) /\ (forall y, b = Some y -> i <= y).
Proof.
  destruct a as [x|], b as [y|]; simpl; intros [= <-].
  - split; [destruct (Nat.min_spec x y) as [[_ ->]|[_ ->]]; auto|].
    split; intros ? [= <-]; lia.
  - split; [auto|]. split; [intros ? [= <-]; lia|discriminate].
  - split; [auto|]. split; [discriminate|intros ? [= <-]; lia].
Qed.

Lemma earliest_none a b : earliest a b = None -> a = None /\ b = None.
Proof. destruct a, b; simpl; intros H; try discriminate; auto. Qed.

(** The loop over [CUT_PATTERNS] keeps the smallest start. *)
Lemma cut_index_earliest chunk :
  cut_index chunk
  = earliest (earliest (search_start CUT_DASHES chunk)
                       (search_start CUT_SINIESTROS chunk))
             (search_start CUT_NUMERO chunk).
Proof.
  unfold cut_index, CUT_PATTERNS. cbv [fold_left].
  destruct (search_start CUT_DASHES chunk) as [a|],
           (search_start CUT_SINIESTROS chunk) as [b|],
           (search_start CUT_NUMERO chunk) as [c|]; cbv [earliest];
    repeat match goal with
           | |- context [?x <? ?y] =>
               destruct (Nat.ltb_spec x y)
           end; try reflexivity; f_equal; lia.
Qed.

Lemma search_start_some r s j :
  search_start r s = Some j ->
  j <= length s /\ matches_here r (skipn j s) = true
  /\ forall m, m < j -> matches_here r (skipn m s) = false.
Proof.
  unfold search_start. intros H.
  apply search_from_some in H as (_ & Hl & Hm & Hmin).
  rewrite Nat.sub_0_r in *. auto.
Qed.

Lemma search_start_before r s i m :
  (forall x, search_start r s = Some x -> i <= x) -> m < i ->
  matches_here r (skipn m s) = false.
Proof.
  intros Hle Hm. destruct (search_start r s) as [x|] eqn:E.
  - apply search_start_some in E as (_ & _ & Hmin).
    apply Hmin. specialize (Hle x eq_refl). lia.
  - exact (search_from_none r s 0 E m).
Qed.

(** The cut index is a position where one of the three patterns matches,
    and none of them matches further left. *)
Lemma cut_index_some chunk i :
  cut_index chunk = Some i ->
  i <= length chunk
  /\ (exists pat, In pat CUT_PATTERNS
                  /\ matches_here pat (skipn i chunk) = true)
  /\ forall m pat, m < i -> In pat CUT_PATTERNS ->
                   matches_here pat (skipn m chunk) = false.
Proof.
  rewrite cut_index_earliest. intros H.
  apply earliest_some in H as (Hwho & H12 & H3).
  assert (H1 : forall x, search_start CUT_DASHES chunk = Some x -> i <= x).
  { intros x Hx. rewrite Hx in H12.
    destruct (search_start CUT_SINIESTROS chunk) as [y|];
      simpl in H12; specialize (H12 _ eq_refl); lia. }
  assert (H2 : forall y, search_start CUT_SINIESTROS chunk = Some y -> i <= y).
  { intros y Hy. rewrite Hy in H12.
    destruct (search_start CUT_DASHES chunk) as [x|];
      simpl in H12; specialize (H12 _ eq_refl); lia. }
  assert (Hone : exists pat, In pat CUT_PATTERNS
                             /\ search_start pat chunk = Some i).
  { unfold CUT_PATTERNS. destruct Hwho as [Hw|Hw].
    - apply earliest_some in Hw as ([Hw|Hw] & _).
      + exists CUT_DASHES. simpl. auto.
      + exists CUT_SINIESTROS. simpl. auto.
    - exists CUT_NUMERO. simpl. auto. }
  destruct Hone as (pat & Hin & Hs).
  apply search_start_some in Hs as (Hl & Hm & _).
  split; [exact Hl|]. split; [eauto|].
  intros m p Hlt Hp. unfold CUT_PATTERNS in Hp. simpl in Hp.
  destruct Hp as [<-|[<-|[<-|[]]]]; eapply search_start_before; eauto.
Qed.

Lemma cut_index_none chunk :
  cut_index chunk = None ->
  forall m pat, In pat CUT_PATTERNS ->
                matches_here pat (skipn m chunk) = false.
Proof.
  rewrite cut_index_earliest. intros H.
  apply earliest_none in H as [H H3]. apply earliest_none in H as [H1 H2].
  intros m pat Hp. unfold CUT_PATTERNS in Hp. simpl in Hp.
  destruct Hp as [<-|[<-|[<-|[]]]]; eapply search_from_none; eassumption.
Qed.

(** A match of one of the patterns at [m] gives a cut at or before [m]. *)
Lemma cut_index_found chunk m pat :
  In pat CUT_PATTERNS -> matches_here pat (skipn m chunk) = true ->
  exists i, cut_index chunk = Some i /\ i <= m.
Proof.
  intros Hp Hm. destruct (cut_index chunk) as [i|] eqn:E.
  - exists i. split; [reflexivity|].
    apply cut_index_some in E as (_ & _ & Hmin).
    destruct (Nat.le_gt_cases i m) as [|Hgt]; [assumption|].
    rewrite (Hmin m pat Hgt Hp) in Hm. discriminate.
  - rewrite (cut_index_none chunk E m pat Hp) in Hm. discriminate.
Qed.

(** ** The last occurrence of a label *)

Lemma rfind_from_shift sub s : forall i k,
  rfind_from sub s (k + i) = option_map (Nat.add k) (rfind_from sub s i).
Proof.
  induction s as [|c s IH]; intros i k; simpl.
  - destruct (null sub); reflexivity.
  - rewrite <- Nat.add_succ_r, IH.
    destruct (rfind_from sub s (S i)); simpl; [reflexivity|].
    destruct (startswith sub (c :: s)); reflexivity.
Qed.

Lemma rfind_from_app sub s pre : forall i j,
  rfind_from sub s (i + length pre) = Some j ->
  rfind_from sub (pre ++ s) i = Some j.
Proof.
  induction pre as [|a pre IH]; intros i j H; simpl in *.
  - now rewrite Nat.add_0_r in H.
  - rewrite (IH (S i) j); [reflexivity|].
    now rewrite Nat.add_succ_r in H.
Qed.

(** What precedes the last occurrence of the label does not move it. *)
Lemma rfind_last pre label post :
  rfind (label ++ post) label = Some 0 ->
  rfind (pre ++ label ++ post) label = Some (length pre).
Proof.
  unfold rfind. intros H. apply rfind_from_app.
  change (0 + length pre) with (length pre).
  rewrite <- (Nat.add_0_r (length pre)) at 1.
  rewrite rfind_from_shift, H. simpl. now rewrite Nat.add_0_r.
Qed.

Lemma rfind_from_none sub s : forall i,
  rfind_from sub s i = None ->
  forall m, startswith sub (skipn m s) = false.
Proof.
  induction s as [|c s IH]; intros i H m; simpl in H.
  - rewrite skipn_nil. destruct sub; [discriminate|reflexivity].
  - destruct (rfind_from sub s (S i)) eqn:E; [discriminate|].
    destruct (startswith sub (c :: s)) eqn:Es; [discriminate|].
    destruct m as [|m]; [exact Es|]. simpl. exact (IH _ E m).
Qed.

(** [rfind] returns an occurrence, and there is none to its right. *)
Lemma rfind_from_some sub s : forall i j,
  rfind_from sub s i = Some j ->
  i <= j /\ j - i <= length s
  /\ startswith sub (skipn (j - i) s) = true
  /\ forall m, j - i < m -> m <= length s ->
               startswith sub (skipn m s) = false.
Proof.
  induction s as [|c s IH]; intros i j H; simpl in H.
  - destruct sub; [|discriminate]. injection H as <-.
    rewrite Nat.sub_diag. repeat split; simpl; trivial.
    intros m Hm Hl. lia.
  - destruct (rfind_from sub s (S i)) as [j'|] eqn:E.
    + injection H as ->. apply IH in E as (Hij & Hl & Ho & Hlast).
      replace (j - i) with (S (j - S i)) by lia. simpl.
      repeat split; trivial; try lia.
      intros [|m] Hm Hml; [lia|]. simpl. apply Hlast; lia.
    + destruct (startswith sub (c :: s)) eqn:Es; [|discriminate].
      injection H as <-. rewrite Nat.sub_diag.
      repeat split; trivial; try (simpl; lia).
      intros [|m] Hm _; [lia|]. simpl. exact (rfind_from_none sub s _ E m).
Qed.

(** The search in a section only reads what follows the last occurrence
    of its label. *)
Lemma buscar_en_seccion_last lib pre label post :
  rfind (label ++ post) label = Some 0 ->
  _buscar_en_seccion lib (pre ++ label ++ post) label
  = _extraer_numero_telefono lib (seccion post).
Proof.
  intros H. unfold _buscar_en_seccion. rewrite (rfind_last pre label post H).
  rewrite <- length_app, app_assoc, skipn_app, skipn_all, Nat.sub_diag.
  reflexivity.
Qed.

(** ** The claims *)

Ltac conjuncts := repeat match goal with |- _ /\ _ => split end.
Ltac by_evaluation := vm_compute; reflexivity.

(** C1.  [extraer_telefono] returns the result of the first of the four
    searches, in the order OBSERVACIONES MANUALES, DESCRIPCION, TELEF-1,
    TELEF-2, that yields a number, and nothing when none does; a number
    found in the OBSERVACIONES MANUALES section is the result whatever the
    other three searches find, as in [doc_prioridad], where each of them
    finds a different mobile. *)
Theorem extraer_telefono_priority uni_word phonenumbers texto :
  extraer_telefono uni_word phonenumbers texto
  = primero (fun r => r) (busquedas uni_word phonenumbers texto)
  /\ (forall tel,
        _buscar_en_seccion phonenumbers texto OBSERVACIONES = Some tel ->
        extraer_telefono uni_word phonenumbers texto = Some tel)
  /\ busquedas uni_word phonenumbers doc_prioridad
     = [Some (py "600111222"); Some (py "611222333");
        Some (py "622333444"); Some (py "633444555")]
  /\ extraer_telefono uni_word phonenumbers doc_prioridad
     = Some (py "600111222").
Proof.
  split; [apply extraer_telefono_primero|].
  split; [|split; by_evaluation].
  intros tel H. rewrite extraer_telefono_primero.
  unfold busquedas. fold OBSERVACIONES. cbv [primero]. now rewrite H.
Qed.

Lemma extraer_telefono_priority_witness :
  _buscar_en_seccion (Some reject_all) doc_prioridad OBSERVACIONES
  = Some (py "600111222")
  /\ extraer_telefono ascii_only (Some reject_all) doc_prioridad
     = Some (py "600111222").
Proof.
  split; [by_evaluation|].
  apply (proj1 (proj2 (extraer_telefono_priority ascii_only
                         (Some reject_all) doc_prioridad))).
  by_evaluation.
Defined.

(** C2.  On "TELEF-1:00685789868" the field search captures 00685789868,
    the normalizer strips the 00 and keeps the nine digits 685789868, which
    start with 6, the classifier accepts them as a national mobile, and
    [extraer_telefono] returns "685789868". *)
Theorem telef1_double_zero_mobile uni_word phonenumbers :
  search_group (campo_pre (py "TELEF-1")) campo_grp doc_telef1
  = Some (py "00685789868")
  /\ finditer PHONE_CANDIDATE_RE (py "00685789868") = [py "00685789868"]
  /\ _normalizar_telefono (py "00685789868") = Some (py "685789868")
  /\ _es_movil phonenumbers (py "685789868") = true
  /\ extraer_telefono uni_word phonenumbers doc_telef1
     = Some (py "685789868").
Proof. conjuncts; by_evaluation. Qed.

(** C3.  The search in a free-text section reads the text after the last
    occurrence of its label only: [rfind] returns an occurrence with none
    to its right, and whatever precedes that occurrence, earlier
    occurrences included, has no effect on the result.  On the document
    with two OBSERVACIONES MANUALES notes the result is 611222333. *)
Theorem seccion_last_occurrence uni_word phonenumbers :
  (forall texto label pos,
      rfind texto label = Some pos ->
      startswith label (skipn pos texto) = true
      /\ forall m, pos < m -> m <= length texto ->
                   startswith label (skipn m texto) = false)
  /\ (forall pre label post,
        rfind (label ++ post) label = Some 0 ->
        _buscar_en_seccion phonenumbers (pre ++ label ++ post) label
        = _extraer_numero_telefono phonenumbers (seccion post))
  /\ rfind doc_observaciones OBSERVACIONES = Some 52
  /\ finditer PHONE_CANDIDATE_RE (seccion (skipn (52 + 23) doc_observaciones))
     = [py " 611222333"]
  /\ extraer_telefono uni_word phonenumbers doc_observaciones
     = Some (py "611222333").
Proof.
  split.
  { intros texto label pos H. unfold rfind in H.
    apply rfind_from_some in H as (_ & _ & Ho & Hlast).
    rewrite Nat.sub_0_r in *. auto. }
  split; [intros pre label post; apply buscar_en_seccion_last|].
  conjuncts; by_evaluation.
Qed.

Lemma seccion_last_occurrence_witness :
  rfind (OBSERVACIONES ++ nota_nueva) OBSERVACIONES = Some 0
  /\ _buscar_en_seccion (Some reject_all)
       (nota_antigua ++ OBSERVACIONES ++ nota_nueva) OBSERVACIONES
     = _extraer_numero_telefono (Some reject_all) (seccion nota_nueva).
Proof.
  split; [by_evaluation|].
  apply (proj1 (proj2 (seccion_last_occurrence ascii_only
                         (Some reject_all)))).
  by_evaluation.
Defined.

(** C4.  In "DESCRIPCION: llamar al 612345678\n----------\nSINIESTROS\n
    999999999" the section is cut at the newline before the ten dashes, so
    its only candidate is " 612345678", 999999999 is not one, and the
    result is 612345678; the same holds with any text before the label
    that has no OBSERVACIONES MANUALES label. *)
Theorem descripcion_cut_before_dashes uni_word phonenumbers :
  cut_index tras_descripcion = Some 20
  /\ seccion tras_descripcion = py " llamar al 612345678"
  /\ finditer PHONE_CANDIDATE_RE (seccion tras_descripcion)
     = [py " 612345678"]
  /\ extraer_telefono uni_word phonenumbers doc_descripcion
     = Some (py "612345678")
  /\ forall pre,
       rfind (pre ++ doc_descripcion) OBSERVACIONES = None ->
       extraer_telefono uni_word phonenumbers (pre ++ doc_descripcion)
       = Some (py "612345678").
Proof.
  do 4 (split; [by_evaluation|]).
  intros pre H. rewrite extraer_telefono_primero. unfold busquedas.
  fold OBSERVACIONES DESCRIPCION.
  assert (H1 : _buscar_en_seccion phonenumbers (pre ++ doc_descripcion)
                 OBSERVACIONES = None).
  { unfold _buscar_en_seccion. now rewrite H. }
  assert (H2 : _buscar_en_seccion phonenumbers (pre ++ doc_descripcion)
                 DESCRIPCION = Some (py "612345678")).
  { unfold doc_descripcion. rewrite buscar_en_seccion_last.
    - by_evaluation.
    - by_evaluation. }
  cbv [primero]. now rewrite H1, H2.
Qed.

Lemma descripcion_cut_before_dashes_witness :
  rfind (py "SINIESTRO 7. " ++ doc_descripcion) OBSERVACIONES = None
  /\ extraer_telefono ascii_only (Some reject_all)
       (py "SINIESTRO 7. " ++ doc_descripcion)
     = Some (py "612345678").
Proof.
  split; [by_evaluation|].
  apply (proj2 (proj2 (proj2 (proj2
           (descripcion_cut_before_dashes ascii_only (Some reject_all)))))).
  by_evaluation.
Defined.

(** C5, as stated, fails: "0 01234567" is normalized to the nine digits
    001234567, and 001234567, which begins with 00, is normalized to
    nothing. *)
Lemma normalizar_not_idempotent :
  _normalizar_telefono (py "0 01234567") = Some (py "001234567")
  /\ _normalizar_telefono (py "001234567") = None.
Proof. split; by_evaluation. Qed.

(** C5, amended.  Normalizing a result of the normalizer that does not
    begin with 00 yields that same result; a result that begins with 00
    is rejected when normalized again. *)
Theorem normalizar_idempotent_unless_00 x y :
  _normalizar_telefono x = Some y ->
  (startswith (py "00") y = false -> _normalizar_telefono y = Some y)
  /\ (startswith (py "00") y = true -> _normalizar_telefono y = None).
Proof.
  intros H. apply normalizar_shape in H as [H9|HP]; split; intros H00.
  - now apply normalizar_nine.
  - now apply normalizar_nine_00.
  - now apply normalizar_plus.
  - destruct HP as (ds & -> & _). discriminate.
Qed.

Lemma normalizar_idempotent_unless_00_witness :
  _normalizar_telefono (py "0034 612 345 678") = Some (py "+34612345678")
  /\ startswith (py "00") (py "+34612345678") = false
  /\ _normalizar_telefono (py "+34612345678") = Some (py "+34612345678").
Proof.
  split; [by_evaluation|]. split; [by_evaluation|].
  refine (proj1 (normalizar_idempotent_unless_00 (py "0034 612 345 678")
                   (py "+34612345678") _) _); by_evaluation.
Defined.

(** C6, as stated, fails: the result for "012345678" is 012345678, nine
    digits with a leading zero. *)
Lemma normalizar_leading_zero :
  _normalizar_telefono (py "012345678") = Some (py "012345678")
  /\ ~ canonical_spec (py "012345678").
Proof.
  split; [by_evaluation|].
  intros [[_ H0]|(ds & H & _)]; [vm_compute in H0|vm_compute in H];
    discriminate.
Qed.

(** C6, amended.  A result of the normalizer is either nine digits, which
    may begin with a zero, or a plus sign followed by 8 to 15 digits. *)
Theorem normalizar_canonical_shape raw y :
  _normalizar_telefono raw = Some y -> nine_digits y \/ plus_digits y.
Proof. apply normalizar_shape. Qed.

Lemma normalizar_canonical_shape_witness :
  _normalizar_telefono (py "012345678") = Some (py "012345678")
  /\ (nine_digits (py "012345678") \/ plus_digits (py "012345678")).
Proof.
  split; [by_evaluation|].
  apply (normalizar_canonical_shape (py "012345678")).
  by_evaluation.
Defined.

(** C7, as stated, fails: the normalizer does not reject 91234567; its
    eight digits are within the bounds 8 to 15 and it returns +91234567,
    which a library that takes it for a valid mobile lets through. *)
Lemma telef2_eight_digits_normalized :
  _normalizar_telefono (py "91234567") = Some (py "+91234567")
  /\ extraer_telefono ascii_only (Some accept_all) doc_telef2
     = Some (py "+91234567").
Proof. split; by_evaluation. Qed.

(** C7, amended.  On "TELEF-2: 91234567" the captured 91234567 is not
    nine digits, the normalizer returns +91234567, and when the
    classifier rejects +91234567 the field search and, no other label
    being present, [extraer_telefono] return nothing. *)
Theorem telef2_eight_digits_rejected_by_classifier uni_word phonenumbers :
  _es_movil phonenumbers (py "+91234567") = false ->
  search_group (campo_pre (py "TELEF-2")) campo_grp doc_telef2
  = Some (py "91234567")
  /\ finditer PHONE_CANDIDATE_RE (py "91234567") = [py "91234567"]
  /\ _normalizar_telefono (py "91234567") = Some (py "+91234567")
  /\ _buscar_campo_telef uni_word phonenumbers doc_telef2 (py "TELEF-2:")
     = None
  /\ extraer_telefono uni_word phonenumbers doc_telef2 = None.
Proof.
  intros H.
  assert (Hn : _normalizar_telefono (py "91234567") = Some (py "+91234567"))
    by by_evaluation.
  assert (Hg : search_group
                 (campo_pre (strip (remove_char 58%N (py "TELEF-2:"))))
                 campo_grp doc_telef2 = Some (py "91234567"))
    by by_evaluation.
  assert (Hv : strip (before_hora uni_word None (py "91234567"))
               = py "91234567") by by_evaluation.
  assert (Hi : finditer PHONE_CANDIDATE_RE (py "91234567")
               = [py "91234567"]) by by_evaluation.
  assert (Hc : probar_candidato phonenumbers (py "91234567") = None).
  { unfold probar_candidato. rewrite Hn.
    change (null (py "+91234567")) with false. cbv iota. now rewrite H. }
  assert (Hf : _buscar_campo_telef uni_word phonenumbers doc_telef2
                 (py "TELEF-2:") = None).
  { unfold _buscar_campo_telef. rewrite Hg. cbv beta iota zeta. rewrite Hv.
    unfold _extraer_numero_telefono. rewrite Hi.
    change (null (py "91234567")) with false. cbv iota.
    cbv [primero]. now rewrite Hc. }
  split; [by_evaluation|]. split; [exact Hi|]. split; [exact Hn|].
  split; [exact Hf|].
  rewrite extraer_telefono_primero. unfold busquedas. rewrite Hf.
  assert (Ho : _buscar_en_seccion phonenumbers doc_telef2
                 (py "OBSERVACIONES MANUALES:") = None) by by_evaluation.
  assert (Hd : _buscar_en_seccion phonenumbers doc_telef2
                 (py "DESCRIPCION:") = None) by by_evaluation.
  assert (Ht : _buscar_campo_telef uni_word phonenumbers doc_telef2
                 (py "TELEF-1:") = None) by by_evaluation.
  rewrite Ho, Hd, Ht. reflexivity.
Qed.

Lemma telef2_eight_digits_rejected_by_classifier_witness :
  _es_movil (Some reject_all) (py "+91234567") = false
  /\ extraer_telefono ascii_only (Some reject_all) doc_telef2 = None.
Proof.
  split; [by_evaluation|].
  apply (telef2_eight_digits_rejected_by_classifier ascii_only
           (Some reject_all)).
  by_evaluation.
Defined.

(** C8, as stated, fails: in [chunk_tabla] the line after the newline at
    index 17 contains the word SINIESTROS among other text, no cut pattern
    matches, and the section keeps that line and the number after it. *)
Lemma siniestros_with_other_text_not_cut :
  line_with (py "SINIESTROS") chunk_tabla 17
  /\ cut_index chunk_tabla = None
  /\ seccion chunk_tabla = chunk_tabla
  /\ ~ length (seccion chunk_tabla) <= 17.
Proof.
  split.
  { exists (py " llamar 612345678"), (py "TABLA "), (py " 2020"),
      (py "699999999").
    split; [by_evaluation|]. split; [by_evaluation|].
    split; vm_compute; intuition discriminate. }
  split; [by_evaluation|]. split; [by_evaluation|].
  vm_compute. intros H. repeat apply le_S_n in H. inversion H.
Qed.

(** C8, amended.  The section is cut at the smallest position at which one
    of the three cut patterns matches, and left whole when none matches
    anywhere, before the cap of 400 characters.  The second pattern
    matches a newline followed by a line made of the word SINIESTROS
    alone, in either case and with white space around it, up to its
    newline, and nothing else; a remainder with such a line is cut at or
    before the newline that opens it. *)
Theorem cut_at_earliest_delimiter chunk :
  (forall i, cut_index chunk = Some i ->
     i <= length chunk
     /\ (exists pat, In pat CUT_PATTERNS
                     /\ matches_here pat (skipn i chunk) = true)
     /\ (forall m pat, m < i -> In pat CUT_PATTERNS ->
                       matches_here pat (skipn m chunk) = false)
     /\ seccion chunk = firstn 400 (firstn i chunk))
  /\ (cut_index chunk = None ->
        (forall m pat, In pat CUT_PATTERNS ->
                       matches_here pat (skipn m chunk) = false)
        /\ seccion chunk = firstn 400 chunk)
  /\ (forall s, matches_here CUT_SINIESTROS s = true <-> siniestros_line s)
  /\ (forall a s, chunk = a ++ s -> siniestros_line s ->
        exists i, i <= length a /\ cut_index chunk = Some i
                  /\ seccion chunk = firstn 400 (firstn i chunk)).
Proof.
  split.
  { intros i H. destruct (cut_index_some chunk i H) as (Hl & Hp & Hmin).
    repeat (split; [assumption|]). unfold seccion. now rewrite H. }
  split.
  { intros H. split; [exact (cut_index_none chunk H)|].
    unfold seccion. now rewrite H. }
  split; [exact siniestros_line_iff|].
  intros a s -> Hs.
  destruct (cut_index_found (a ++ s) (length a) CUT_SINIESTROS) as (i & Hi & Hle).
  - unfold CUT_PATTERNS. simpl. auto.
  - rewrite skipn_app, skipn_all, Nat.sub_diag. simpl.
    now apply siniestros_line_iff.
  - exists i. repeat (split; [assumption|]). unfold seccion. now rewrite Hi.
Qed.

Lemma cut_at_earliest_delimiter_witness :
  siniestros_line linea_tabla
  /\ exists i, i <= length antes_tabla
       /\ cut_index (antes_tabla ++ linea_tabla) = Some i
       /\ seccion (antes_tabla ++ linea_tabla)
          = firstn 400 (firstn i (antes_tabla ++ linea_tabla)).
Proof.
  assert (H : siniestros_line linea_tabla).
  { exists (py "  "), (py "siniestros"), (py " "), (py "699999999").
    split; [by_evaluation|]. split; [by_evaluation|].
    split; [|by_evaluation].
    unfold ci_word. vm_compute. repeat constructor. }
  split; [exact H|].
  exact (proj2 (proj2 (proj2
           (cut_at_earliest_delimiter (antes_tabla ++ linea_tabla))))
           antes_tabla linea_tabla eq_refl H).
Defined.

(** C9.  The module imports phonenumbers without a guard: where the
    package is missing the import raises and there is no classifier to
    call, and where the module has loaded the global [phonenumbers] is
    never [None], so the fallback of [_es_movil] that accepts every
    number with a plus sign is out of reach.  The classifier itself
    answers [True] to such a number when the global is [None], and
    [False] when the parse raises [NumberParseException]. *)
Theorem import_phonenumbers_unguarded :
  module_globals None = Raise ModuleNotFoundError
  /\ (forall lib, module_globals (Some lib) = Return (Some lib))
  /\ (forall installed, fallback_reachable (module_globals installed) = false)
  /\ (forall ds, _es_movil None (PLUS :: ds) = true)
  /\ (forall P (valid : P -> bool) (type : P -> PhoneNumberType) ds,
        _es_movil (Some {| PhoneNumber := P;
                           parse := fun _ => None;
                           is_valid_number := valid;
                           number_type := type |}) (PLUS :: ds) = false).
Proof.
  split; [reflexivity|]. split; [reflexivity|].
  split; [intros [lib|]; reflexivity|].
  split; reflexivity.
Qed.


(** ** More on the normalizer *)

Lemma space_not_digit c : is_space c = true -> is_digit c = false.
Proof.
  intros Hs. destruct (is_digit c) eqn:Hd; [|reflexivity].
  apply digit_not_space in Hd. congruence.
Qed.

Lemma only_digits_lstrip s : only_digits (lstrip s) = only_digits s.
Proof.
  induction s as [|c s IH]; simpl; [reflexivity|].
  destruct (is_space c) eqn:Hs; [|reflexivity].
  now rewrite (space_not_digit _ Hs).
Qed.

Lemma only_digits_strip s : only_digits (strip s) = only_digits s.
Proof.
  unfold strip, rstrip, only_digits.
  rewrite filter_rev. fold (only_digits (lstrip (rev (lstrip s)))).
  rewrite only_digits_lstrip. unfold only_digits.
  rewrite filter_rev, rev_involutive. apply only_digits_lstrip.
Qed.

Lemma only_digits_replace_nbsp s :
  only_digits (replace_char NBSP 32%N s) = only_digits s.
Proof.
  induction s as [|c s IH]; simpl; [reflexivity|].
  destruct (N.eqb_spec c NBSP) as [->|_]; rewrite IH.
  - reflexivity.
  - reflexivity.
Qed.

Lemma only_digits_clean raw :
  only_digits (strip (replace_char NBSP 32%N (strip raw))) = only_digits raw.
Proof.
  now rewrite only_digits_strip, only_digits_replace_nbsp, only_digits_strip.
Qed.

Lemma startswith_app p s : startswith p (p ++ s) = true.
Proof.
  induction p as [|a p IH]; simpl; [reflexivity|].
  now rewrite N.eqb_refl, IH.
Qed.

Lemma startswith_inv p : forall s,
  startswith p s = true -> exists t, s = p ++ t.
Proof.
  induction p as [|a p IH]; intros s H; simpl in *.
  - exists s. reflexivity.
  - destruct s as [|b s]; [discriminate|].
    apply andb_true_iff in H as [Hab H]. apply N.eqb_eq in Hab. subst b.
    destruct (IH s H) as (t & ->). exists t. reflexivity.
Qed.

Lemma only_digits_plus t : only_digits (PLUS :: t) = only_digits t.
Proof.
  unfold only_digits.
  change (filter is_digit (PLUS :: t))
    with (if is_digit PLUS then PLUS :: filter is_digit t
          else filter is_digit t).
  now rewrite plus_not_digit.
Qed.

Lemma only_digits_app a b : only_digits (a ++ b) = only_digits a ++ only_digits b.
Proof. apply filter_app. Qed.

(** The digits of a result are those of the input, less a leading 0, 00
    or 34 at most. *)
Lemma normalizar_digits raw y :
  _normalizar_telefono raw = Some y ->
  exists dropped,
    only_digits raw = dropped ++ only_digits y
    /\ In dropped [[]; py "0"; py "00"; py "34"].
Proof.
  unfold _normalizar_telefono.
  destruct (null raw); [discriminate|].
  rewrite <- (only_digits_clean raw).
  set (s := strip (replace_char NBSP 32%N (strip raw))). clearbody s.
  change (py "+") with [PLUS].
  destruct (startswith (py "00") s) eqn:E00.
  - apply startswith_inv in E00 as (t & ->).
    change (skipn 2 (py "00" ++ t)) with t.
    change (only_digits (py "00" ++ t)) with (py "00" ++ only_digits t).
    set (rest := only_digits t).
    assert (Hrest : all_digits rest) by apply only_digits_all.
    assert (Hfix : only_digits rest = rest) by now apply only_digits_fixed.
    clearbody rest. intros H. exists (py "00"). split; [|simpl; auto].
    f_equal.
    destruct ((length rest =? 9) && in_chars (at_ rest 0) "67");
      [injection H as <-; now rewrite Hfix|].
    destruct ((length rest =? 9) && in_chars (at_ rest 0) "89");
      [injection H as <-; now rewrite Hfix|].
    change (startswith [PLUS] ([PLUS] ++ rest)) with true in H. cbv iota in H.
    change (skipn 1 ([PLUS] ++ rest)) with rest in H. rewrite Hfix in H.
    break_if H; [|discriminate]. injection H as <-.
    cbn [app]. now rewrite only_digits_plus, Hfix.
  - destruct (startswith [PLUS] s) eqn:EP.
    + apply startswith_inv in EP as (t & ->).
      change (skipn 1 ([PLUS] ++ t)) with t.
      intros H. break_if H; [|discriminate]. injection H as <-.
      exists []. split; [|simpl; auto].
      cbn [app]. rewrite !only_digits_plus.
      symmetry. apply only_digits_fixed, only_digits_all.
    + set (digits := only_digits s).
      assert (Hd : all_digits digits) by apply only_digits_all.
      clearbody digits.
      destruct (null digits); [discriminate|].
      destruct (startswith (py "0") digits && (length digits =? 10)
                && in_chars (at_ digits 1) "6789") eqn:E0.
      * apply andb_true_iff in E0 as [E0 _].
        apply andb_true_iff in E0 as [E0 E10].
        apply startswith_inv in E0 as (d & E0). apply Nat.eqb_eq in E10.
        rewrite E0 in *. change (skipn 1 (py "0" ++ d)) with d.
        assert (Hdd : all_digits d) by exact (all_digits_skipn 1 _ Hd).
        assert (Hl : length d = 9) by (simpl in E10; lia).
        rewrite Hl. change (9 =? 11) with false.
        rewrite andb_false_r, andb_false_l. cbv iota.
        change (9 =? 9) with true. cbv iota. intros [= <-].
        exists (py "0"). split; [|simpl; auto].
        now rewrite (only_digits_fixed _ Hdd).
      * intros H. break_if H.
        -- injection H as <-.
           apply andb_true_iff in E as [E _]. apply andb_true_iff in E as [E E11].
           apply startswith_inv in E as (d & E). apply Nat.eqb_eq in E11.
           exists (py "34"). split; [|simpl; auto].
           rewrite E in *. unfold last_n. rewrite E11.
           change (skipn (11 - 9) (py "34" ++ d)) with d.
           assert (Hdd : all_digits d) by exact (all_digits_skipn 2 _ Hd).
           now rewrite (only_digits_fixed _ Hdd).
        -- exists []. split; [|simpl; auto]. simpl app.
           break_if H.
           ++ injection H as <-. now rewrite (only_digits_fixed _ Hd).
           ++ break_if H; [|discriminate]. injection H as <-.
              cbn [app]. now rewrite only_digits_plus, (only_digits_fixed _ Hd).
Qed.

Lemma nonempty_digits y : nine_digits y \/ plus_digits y -> only_digits y <> [].
Proof.
  intros [[Hl Hd]|(ds & -> & Hl & Hd)].
  - rewrite (only_digits_fixed _ Hd). destruct y; [discriminate|easy].
  - rewrite only_digits_plus, (only_digits_fixed _ Hd).
    destruct ds; [simpl in Hl; lia|easy].
Qed.

Lemma normalizar_sin_digitos raw :
  only_digits raw = [] -> _normalizar_telefono raw = None.
Proof.
  intros H0. destruct (_normalizar_telefono raw) as [y|] eqn:E; [|reflexivity].
  destruct (normalizar_digits raw y E) as (dropped & Hd & _).
  apply normalizar_shape, nonempty_digits in E.
  rewrite H0 in Hd. symmetry in Hd. apply app_eq_nil in Hd as [_ Hd].
  contradiction.
Qed.

Lemma lstrip_spaces ws s : spaces ws -> lstrip (ws ++ s) = lstrip s.
Proof.
  unfold spaces. induction ws as [|c ws IH]; simpl; [reflexivity|].
  intros H. apply andb_true_iff in H as [Hc H]. rewrite Hc. auto.
Qed.

Lemma lstrip_all_spaces ws : spaces ws -> lstrip ws = [].
Proof.
  intros H. rewrite <- (app_nil_r ws). now rewrite lstrip_spaces.
Qed.

Lemma lstrip_app a b :
  lstrip (a ++ b) = if forallb is_space a then lstrip b else lstrip a ++ b.
Proof.
  induction a as [|c a IH]; simpl; [reflexivity|].
  destruct (is_space c); [exact IH|reflexivity].
Qed.

Lemma rstrip_spaces s ws : spaces ws -> rstrip (s ++ ws) = rstrip s.
Proof.
  intros H. unfold rstrip. rewrite rev_app_distr, lstrip_spaces; [reflexivity|].
  unfold spaces in *. apply forallb_forall. intros x Hx. apply in_rev in Hx.
  exact (proj1 (forallb_forall _ _) H x Hx).
Qed.

Lemma strip_spaces ws1 s ws2 :
  spaces ws1 -> spaces ws2 -> strip (ws1 ++ s ++ ws2) = strip s.
Proof.
  intros H1 H2. unfold strip. rewrite lstrip_spaces by assumption.
  rewrite lstrip_app. destruct (forallb is_space s) eqn:Hs.
  - rewrite (lstrip_all_spaces ws2 H2), (lstrip_all_spaces s Hs). reflexivity.
  - now apply rstrip_spaces.
Qed.

Lemma normalizar_strip raw1 raw2 :
  strip raw1 = strip raw2 ->
  _normalizar_telefono raw1 = _normalizar_telefono raw2.
Proof.
  intros H.
  assert (Hempty : forall a b, null a = true -> strip a = strip b ->
                               _normalizar_telefono b = None).
  { intros a b Ha Hab. destruct a; [|discriminate].
    apply normalizar_sin_digitos.
    now rewrite <- only_digits_strip, <- Hab. }
  destruct (null raw1) eqn:E1.
  - rewrite (Hempty raw1 raw2 E1 H). destruct raw1; [reflexivity|discriminate].
  - destruct (null raw2) eqn:E2.
    + rewrite (Hempty raw2 raw1 E2 (eq_sym H)).
      destruct raw2; [reflexivity|discriminate].
    + unfold _normalizar_telefono. rewrite E1, E2, H. reflexivity.
Qed.

(** A string made of a plus sign and digits, or of digits, is left as it
    is by the two [strip]s and the replacement of the no-break spaces. *)
Lemma clean_digits s :
  all_digits s -> strip (replace_char NBSP 32%N (strip s)) = s.
Proof.
  intros Hd.
  now rewrite (strip_no_space _ (all_digits_no_space _ Hd)),
    (replace_char_absent _ _ _ (all_digits_no_nbsp _ Hd)),
    (strip_no_space _ (all_digits_no_space _ Hd)).
Qed.

Lemma clean_plus_digits s :
  all_digits s -> strip (replace_char NBSP 32%N (strip (PLUS :: s))) = PLUS :: s.
Proof.
  intros Hd.
  assert (Hns : forallb (fun c => negb (is_space c)) (PLUS :: s) = true).
  { simpl. now rewrite (all_digits_no_space _ Hd). }
  assert (Hnb : forallb (fun c => negb (c =? NBSP)%N) (PLUS :: s) = true).
  { simpl. now rewrite (all_digits_no_nbsp _ Hd). }
  now rewrite (strip_no_space _ Hns), (replace_char_absent _ _ _ Hnb),
    (strip_no_space _ Hns).
Qed.

Lemma in_chars_6789 c :
  in_chars c "6789" = true -> c = 54%N \/ c = 55%N \/ c = 56%N \/ c = 57%N.
Proof.
  unfold in_chars. change (py "6789") with [54%N; 55%N; 56%N; 57%N].
  cbv [existsb].
  destruct (N.eqb_spec c 54); [auto|]. destruct (N.eqb_spec c 55); [auto|].
  destruct (N.eqb_spec c 56); [auto|]. destruct (N.eqb_spec c 57); [auto|].
  discriminate.
Qed.

Lemma spanish_number_inv ds :
  spanish_number ds ->
  exists d t, ds = d :: t /\ length t = 8 /\ all_digits t
              /\ (d = 54%N \/ d = 55%N \/ d = 56%N \/ d = 57%N).
Proof.
  intros [[Hl Hd] H]. destruct ds as [|d t]; [discriminate|].
  exists d, t. split; [reflexivity|]. split; [simpl in Hl; lia|].
  split.
  - unfold all_digits in *.
    change (forallb is_digit (d :: t)) with (is_digit d && forallb is_digit t) in Hd.
    now apply andb_true_iff in Hd.
  - now apply in_chars_6789.
Qed.

(** The normalizer on a plus sign followed by digits, on 00 followed by
    digits, and on digits that do not begin with 00. *)
Lemma normalizar_plus_eq s :
  all_digits s ->
  _normalizar_telefono (PLUS :: s)
  = if (8 <=? length s) && (length s <=? 15) then Some (PLUS :: s) else None.
Proof.
  intros Hd. unfold _normalizar_telefono. cbv zeta.
  cbv beta iota delta [null].
  rewrite (clean_plus_digits s Hd).
  change (startswith (py "00") (PLUS :: s)) with false.
  change (startswith (py "+") (PLUS :: s)) with true. cbv iota.
  change (skipn 1 (PLUS :: s)) with s. rewrite (only_digits_fixed _ Hd).
  change (length (py "+" ++ s) - 1) with (length s - 0).
  now rewrite Nat.sub_0_r.
Qed.

Lemma normalizar_00_eq s :
  all_digits s ->
  _normalizar_telefono (py "00" ++ s)
  = if (length s =? 9) && in_chars (at_ s 0) "67" then Some s
    else if (length s =? 9) && in_chars (at_ s 0) "89" then Some s
    else if (8 <=? length s) && (length s <=? 15) then Some (PLUS :: s)
    else None.
Proof.
  intros Hd. unfold _normalizar_telefono. cbv zeta.
  change (null (py "00" ++ s)) with false. cbv iota.
  assert (H00 : all_digits (py "00" ++ s)).
  { unfold all_digits in *. change (py "00" ++ s) with (48%N :: 48%N :: s).
    change (forallb is_digit (48%N :: 48%N :: s))
      with (is_digit 48%N && (is_digit 48%N && forallb is_digit s)).
    now rewrite Hd. }
  rewrite (clean_digits _ H00), startswith_app.
  change (skipn 2 (py "00" ++ s)) with s. rewrite (only_digits_fixed _ Hd).
  destruct ((length s =? 9) && in_chars (at_ s 0) "67"); [reflexivity|].
  destruct ((length s =? 9) && in_chars (at_ s 0) "89"); [reflexivity|].
  change (startswith (py "+") (py "+" ++ s)) with true. cbv iota.
  change (skipn 1 (py "+" ++ s)) with s. rewrite (only_digits_fixed _ Hd).
  change (length (py "+" ++ s) - 1) with (length s - 0).
  now rewrite Nat.sub_0_r.
Qed.

Lemma normalizar_digits_eq s :
  all_digits s -> null s = false -> startswith (py "00") s = false ->
  _normalizar_telefono s
  = let digits :=
      if startswith (py "0") s && (length s =? 10)
         && in_chars (at_ s 1) "6789"
      then skipn 1 s else s in
    if startswith (py "34") digits && (length digits =? 11)
       && in_chars (at_ digits 2) "6789"
    then Some (last_n 9 digits)
    else if length digits =? 9 then Some digits
    else if (8 <=? length digits) && (length digits <=? 15)
    then Some (PLUS :: digits)
    else None.
Proof.
  intros Hd Hn H00. unfold _normalizar_telefono. cbv zeta.
  rewrite Hn, (clean_digits _ Hd), H00.
  assert (HP : startswith (py "+") s = false).
  { destruct s as [|c s']; [discriminate|].
    change (startswith (py "+") (c :: s')) with ((PLUS =? c)%N && true).
    unfold all_digits in Hd.
    change (forallb is_digit (c :: s'))
      with (is_digit c && forallb is_digit s') in Hd.
    apply andb_true_iff in Hd as [Hc _].
    now rewrite N.eqb_sym, (digit_not_plus _ Hc). }
  rewrite HP, (only_digits_fixed _ Hd), Hn. reflexivity.
Qed.

Ltac digits_goal Ht Hdig :=
  unfold all_digits in *; cbn [forallb app]; rewrite ?Ht, ?Hdig; reflexivity.

Lemma normalizar_prefijos ds :
  spanish_number ds ->
  _normalizar_telefono (py "0" ++ ds) = Some ds
  /\ _normalizar_telefono (py "34" ++ ds) = Some ds
  /\ _normalizar_telefono (py "00" ++ ds) = Some ds
  /\ _normalizar_telefono (py "+34" ++ ds) = Some (py "+34" ++ ds)
  /\ _normalizar_telefono (py "0034" ++ ds) = Some (py "+34" ++ ds).
Proof.
  intros H. destruct (spanish_number_inv ds H) as (d & t & -> & Hl & Ht & Hd).
  assert (Hds : all_digits (d :: t)) by (destruct H as [[_ Hx] _]; exact Hx).
  assert (Hdig : is_digit d = true).
  { destruct Hd as [-> | [-> | [-> | ->]]]; reflexivity. }
  split; [|split; [|split; [|split]]].
  - rewrite normalizar_digits_eq;
      [|change (py "0" ++ d :: t) with (48%N :: d :: t); digits_goal Ht Hdig
       |reflexivity
       |destruct Hd as [-> | [-> | [-> | ->]]]; reflexivity].
    destruct Hd as [-> | [-> | [-> | ->]]];
      do 3 (cbn; rewrite ?Hl); reflexivity.
  - rewrite normalizar_digits_eq;
      [|change (py "34" ++ d :: t) with (51%N :: 52%N :: d :: t);
        digits_goal Ht Hdig
       |reflexivity|reflexivity].
    destruct Hd as [-> | [-> | [-> | ->]]];
      unfold last_n; do 3 (cbn; rewrite ?Hl); reflexivity.
  - rewrite (normalizar_00_eq _ Hds).
    destruct Hd as [-> | [-> | [-> | ->]]];
      do 3 (cbn; rewrite ?Hl); reflexivity.
  - change (py "+34" ++ d :: t) with (PLUS :: 51%N :: 52%N :: d :: t).
    rewrite normalizar_plus_eq;
      [|digits_goal Ht Hdig].
    cbn [length]. rewrite Hl. reflexivity.
  - change (py "0034" ++ d :: t) with (py "00" ++ 51%N :: 52%N :: d :: t).
    rewrite normalizar_00_eq;
      [|digits_goal Ht Hdig].
    cbn [length]. rewrite Hl. reflexivity.
Qed.

(** ** Matches as parts of the text *)

Lemma match_rest_sound r s rest :
  match_rest r s = Some rest -> exists m, s = m ++ rest /\ lang r m.
Proof.
  unfold match_rest. intros H.
  apply rmatch_sound in H as (u & v & -> & L & [= ->]). eauto.
Qed.

Lemma match_text_sound r s m :
  match_text r s = Some m -> lang r m /\ exists rest, s = m ++ rest.
Proof.
  unfold match_text. destruct (match_rest r s) as [rest|] eqn:E; [|discriminate].
  simpl. intros [= <-].
  apply match_rest_sound in E as (u & -> & L).
  rewrite length_app, Nat.add_sub, firstn_app, Nat.sub_diag, firstn_all.
  simpl. rewrite app_nil_r. eauto.
Qed.

Lemma finditer_from_sound r s : forall skip c,
  In c (finditer_from r s skip) -> lang r c /\ infix_of c s.
Proof.
  induction s as [|x s IH]; intros skip c H; simpl in H; [contradiction|].
  assert (Hrec : forall k, In c (finditer_from r s k) ->
                           lang r c /\ infix_of c (x :: s)).
  { intros k Hk. destruct (IH k c Hk) as (L & a & b & ->).
    split; [exact L|]. exists (x :: a), b. reflexivity. }
  destruct skip as [|n]; [|eauto].
  destruct (match_text r (x :: s)) as [m|] eqn:E; [|eauto].
  destruct H as [<-|H]; [|eauto].
  apply match_text_sound in E as (L & rest & ->).
  split; [exact L|]. exists [], rest. reflexivity.
Qed.

Lemma search_group_sound pre grp s : forall g,
  search_group pre grp s = Some g -> lang grp g /\ infix_of g s.
Proof.
  induction s as [|x s IH]; intros g H; simpl in H.
  - destruct (rmatch pre [] (fun s1 => match_text grp s1)) as [g'|] eqn:E;
      [|discriminate].
    injection H as ->. apply rmatch_sound in E as (u & v & Huv & _ & E).
    apply match_text_sound in E as (L & rest & ->).
    split; [exact L|]. exists u, rest. exact Huv.
  - destruct (rmatch pre (x :: s) (fun s1 => match_text grp s1)) as [g'|] eqn:E.
    + injection H as ->. apply rmatch_sound in E as (u & v & Huv & _ & E).
      apply match_text_sound in E as (L & rest & ->).
      split; [exact L|]. exists u, rest. exact Huv.
    + destruct (IH g H) as (L & a & b & ->).
      split; [exact L|]. exists (x :: a), b. reflexivity.
Qed.

Lemma lang_seqs_cons r rs u :
  lang (seqs (r :: rs)) u <->
  exists u1 u2, u = u1 ++ u2 /\ lang r u1 /\ lang (seqs rs) u2.
Proof.
  change (seqs (r :: rs)) with (Seq r (seqs rs)). split.
  - apply lang_seq_inv.
  - intros (u1 & u2 & -> & L1 & L2). now constructor.
Qed.

Lemma lang_seqs_nil u : lang (seqs []) u <-> u = [].
Proof.
  split; [apply lang_eps_inv|intros ->; constructor].
Qed.

Lemma lang_word_exact w u : lang (word false w) u <-> u = w.
Proof.
  revert u. induction w as [|c w IH]; intros u; simpl.
  - split; [apply lang_eps_inv|intros ->; constructor].
  - split.
    + intros H. apply lang_seq_inv in H as (u1 & u2 & -> & H1 & H2).
      apply lang_chr_inv in H1 as (x & -> & Hx). apply N.eqb_eq in Hx.
      apply IH in H2. now subst.
    + intros ->. change (c :: w) with ([c] ++ w).
      constructor; [constructor; apply N.eqb_refl|now apply IH].
Qed.

(** The words of [PHONE_CANDIDATE_RE]. *)
Lemma candidate_lang c :
  lang PHONE_CANDIDATE_RE c <-> candidate_shape c.
Proof.
  unfold PHONE_CANDIDATE_RE, candidate_shape, spaces.
  rewrite lang_seqs_cons. split.
  - intros (p & u0 & -> & Lp & L).
    apply lang_seqs_cons in L as (ws & u1 & -> & Lw & L).
    apply lang_seqs_cons in L as (x1 & u2 & -> & L1 & L).
    apply lang_seqs_cons in L as (mid & u3 & -> & Lm & L).
    apply lang_seqs_cons in L as (x2 & u4 & -> & L2 & L).
    apply lang_seqs_nil in L as ->.
    apply lang_rep_inv in Lw as [Hw _]. apply lang_rep_inv in Lm as [Hm Hlen].
    apply lang_chr_inv in L1 as (d1 & -> & H1).
    apply lang_chr_inv in L2 as (d2 & -> & H2).
    exists p, ws, d1, mid, d2. rewrite app_nil_r.
    split; [reflexivity|]. split.
    { inversion Lp as [| | | | |r u Lu|r|]; subst; [|auto].
      inversion Lu; subst.
      - right; left. now apply lang_word_exact.
      - right; right. now apply lang_word_exact. }
    repeat (split; [assumption|]). assumption.
  - intros (p & ws & d1 & mid & d2 & -> & Hp & Hw & H1 & Hm & Hlen & H2).
    exists p, (ws ++ d1 :: mid ++ [d2]). split; [reflexivity|]. split.
    { destruct Hp as [->|[->| ->]].
      - apply LOptN.
      - apply LOptS, LAltL. now apply lang_word_exact.
      - apply LOptS, LAltR. now apply lang_word_exact. }
    apply lang_seqs_cons. exists ws, (d1 :: mid ++ [d2]).
    split; [reflexivity|]. split; [constructor; [assumption|lia]|].
    apply lang_seqs_cons. exists [d1], (mid ++ [d2]).
    split; [reflexivity|]. split; [now constructor|].
    apply lang_seqs_cons. exists mid, [d2].
    split; [reflexivity|]. split; [now constructor|].
    apply lang_seqs_cons. exists [d2], [].
    split; [reflexivity|]. split; [now constructor|].
    now apply lang_seqs_nil.
Qed.

(** The words of the group of a field pattern. *)
Lemma campo_grp_lang v : lang campo_grp v <-> field_value_shape v.
Proof.
  unfold campo_grp, field_value_shape. rewrite lang_seqs_cons. split.
  - intros (x & u0 & -> & Lx & L).
    apply lang_seqs_cons in L as (t & u1 & -> & Lt & L).
    apply lang_seqs_nil in L as ->.
    apply lang_chr_inv in Lx as (h & -> & Hh).
    apply lang_rep_inv in Lt as [Ht Hlen].
    exists h, t. rewrite app_nil_r. split; [reflexivity|].
    split; [|split; assumption].
    unfold field_head in Hh. apply orb_true_iff in Hh as [Hh|Hh]; [|auto].
    left. now apply N.eqb_eq in Hh.
  - intros (h & t & -> & Hh & Ht & Hlen).
    exists [h], t. split; [reflexivity|]. split.
    + constructor. unfold field_head.
      destruct Hh as [->|Hh]; [reflexivity|]. rewrite Hh. apply orb_true_r.
    + apply lang_seqs_cons. exists t, []. rewrite app_nil_r.
      split; [reflexivity|]. split; [now constructor|now apply lang_seqs_nil].
Qed.

(** ** Texts without digits *)

Lemma only_digits_nil_iff s :
  only_digits s = [] <-> forall x, In x s -> is_digit x = false.
Proof.
  unfold only_digits. induction s as [|c s IH]; simpl.
  - split; [intros _ x []|reflexivity].
  - destruct (is_digit c) eqn:Hc.
    + split; [discriminate|]. intros H. rewrite (H c) in Hc by auto.
      discriminate.
    + rewrite IH. split.
      * intros H x [<-|Hx]; auto.
      * intros H x Hx. apply H. auto.
Qed.

Lemma only_digits_nil_incl t s :
  incl t s -> only_digits s = [] -> only_digits t = [].
Proof.
  intros Hi Hs. apply only_digits_nil_iff. intros x Hx.
  exact (proj1 (only_digits_nil_iff s) Hs x (Hi x Hx)).
Qed.

Lemma infix_incl c s : infix_of c s -> incl c s.
Proof.
  intros (a & b & ->) x Hx. apply in_or_app. right.
  apply in_or_app. now left.
Qed.

Lemma incl_firstn (n : nat) (s : str) : incl (firstn n s) s.
Proof.
  intros x Hx. rewrite <- (firstn_skipn n s). apply in_or_app. now left.
Qed.

Lemma incl_skipn (n : nat) (s : str) : incl (skipn n s) s.
Proof.
  intros x Hx. rewrite <- (firstn_skipn n s). apply in_or_app. now right.
Qed.

Lemma incl_lstrip s : incl (lstrip s) s.
Proof.
  induction s as [|c s IH]; simpl; [easy|].
  destruct (is_space c); [|easy]. intros x Hx. right. now apply IH.
Qed.

Lemma incl_strip s : incl (strip s) s.
Proof.
  unfold strip, rstrip. intros x Hx.
  apply in_rev, incl_lstrip, in_rev in Hx. now apply incl_lstrip.
Qed.

Lemma incl_seccion chunk : incl (seccion chunk) (firstn 400 chunk).
Proof.
  unfold seccion. destruct (cut_index chunk) as [i|]; [|easy].
  intros x Hx. rewrite firstn_firstn in Hx.
  replace (firstn (Nat.min 400 i) chunk)
    with (firstn (Nat.min 400 i) (firstn 400 chunk)) in Hx
    by (rewrite firstn_firstn; f_equal; lia).
  exact (incl_firstn _ _ x Hx).
Qed.

Lemma incl_before_hora uni_word s : forall prev,
  incl (before_hora uni_word prev s) s.
Proof.
  induction s as [|c s IH]; intros prev; [easy|].
  cbn [before_hora]. destruct (hora_here uni_word prev (c :: s)).
  - intros x [].
  - intros x [<-|Hx]; [now left|]. right. exact (IH _ x Hx).
Qed.

Lemma candidate_has_digit c : candidate_shape c -> only_digits c <> [].
Proof.
  intros (p & ws & d1 & mid & d2 & -> & _ & _ & H1 & _) H0.
  rewrite only_digits_nil_iff in H0. rewrite (H0 d1) in H1; [discriminate|].
  apply in_or_app. right. apply in_or_app. right. now left.
Qed.

Lemma finditer_no_digits texto :
  only_digits texto = [] -> finditer PHONE_CANDIDATE_RE texto = [].
Proof.
  intros H0. destruct (finditer PHONE_CANDIDATE_RE texto) as [|c l] eqn:E;
    [reflexivity|].
  assert (Hc : In c (finditer PHONE_CANDIDATE_RE texto)) by (rewrite E; now left).
  apply finditer_from_sound in Hc as [L Hi].
  apply candidate_lang, candidate_has_digit in L.
  apply infix_incl in Hi. now rewrite (only_digits_nil_incl _ _ Hi H0) in L.
Qed.

Lemma extraer_numero_no_digits lib texto :
  only_digits texto = [] -> _extraer_numero_telefono lib texto = None.
Proof.
  intros H0. unfold _extraer_numero_telefono.
  destruct (null texto); [reflexivity|].
  now rewrite (finditer_no_digits texto H0).
Qed.

Lemma buscar_en_seccion_no_digits lib texto etiqueta :
  only_digits texto = [] -> _buscar_en_seccion lib texto etiqueta = None.
Proof.
  intros H0. unfold _buscar_en_seccion.
  destruct (rfind texto etiqueta) as [pos|]; [|reflexivity].
  apply extraer_numero_no_digits.
  apply (only_digits_nil_incl _ texto); [|exact H0].
  intros x Hx. apply incl_seccion, incl_firstn, incl_skipn in Hx. exact Hx.
Qed.

Lemma buscar_campo_no_digits uni_word lib texto campo :
  only_digits texto = [] ->
  _buscar_campo_telef uni_word lib texto campo = None.
Proof.
  intros H0. unfold _buscar_campo_telef.
  destruct (search_group _ campo_grp texto) as [valor|] eqn:E; [|reflexivity].
  apply extraer_numero_no_digits.
  apply search_group_sound in E as [_ Hi]. apply infix_incl in Hi.
  apply (only_digits_nil_incl _ texto); [|exact H0].
  intros x Hx. apply incl_strip, incl_before_hora in Hx. now apply Hi.
Qed.

(** ** The value of a field *)

Lemma ignorecase_H x : ignorecase 72%N x = true -> x = 104%N \/ x = 72%N.
Proof.
  unfold ignorecase.
  change (is_upper 72%N) with true. cbv iota zeta.
  change (72 + 32)%N with 104%N. change (is_lower 104%N) with true. cbv iota.
  change (104 - 32)%N with 72%N.
  change (104 =? 105)%N with false. change (104 =? 115)%N with false.
  change (104 =? 107)%N with false. rewrite !andb_false_l, !orb_false_r.
  intros H. apply orb_true_iff in H as [H|H]; apply N.eqb_eq in H; auto.
Qed.

Lemma field_char_not_H x :
  field_head x = true \/ field_class x = true -> ignorecase 72%N x = false.
Proof.
  intros H. destruct (ignorecase 72%N x) eqn:E; [|reflexivity].
  apply ignorecase_H in E as [->| ->]; destruct H as [H|H];
    vm_compute in H; discriminate.
Qed.

Lemma before_hora_id uni_word s :
  (forall x, In x s -> ignorecase 72%N x = false) ->
  forall prev, before_hora uni_word prev s = s.
Proof.
  induction s as [|c s IH]; intros Hs prev; [reflexivity|].
  cbn [before_hora].
  assert (Hh : hora_here uni_word prev (c :: s) = false).
  { unfold hora_here. destruct s as [|o [|r [|a rest]]]; try reflexivity.
    now rewrite (Hs c (or_introl eq_refl)). }
  rewrite Hh. f_equal. apply IH. intros x Hx. apply Hs. now right.
Qed.

Lemma field_value_no_H v :
  field_value_shape v -> forall x, In x v -> ignorecase 72%N x = false.
Proof.
  intros (h & t & -> & Hh & Ht & _) x [<-|Hx]; apply field_char_not_H.
  - left. unfold field_head. destruct Hh as [->|Hh]; [reflexivity|].
    rewrite Hh. apply orb_true_r.
  - right. exact (proj1 (forallb_forall _ _) Ht x Hx).
Qed.

(** ** The matcher on a text of known shape *)

Lemma rep_greedy {A} p n u s (k : str -> option A) a :
  forallb p u = true -> n <= length u -> stops p s -> k s = Some a ->
  rep p n (u ++ s) k = Some a.
Proof.
  revert n. induction u as [|c u IH]; intros n Hu Hn Hs Hk.
  - simpl in Hn. assert (n = 0) as -> by lia. simpl.
    destruct s as [|c s]; simpl; [exact Hk|].
    simpl in Hs. rewrite Hs. exact Hk.
  - simpl in Hu. apply andb_true_iff in Hu as [Hc Hu].
    simpl. rewrite Hc. rewrite (IH (pred n)); trivial. simpl in Hn. lia.
Qed.

Lemma rmatch_word_ci {A} base w s (k : str -> option A) :
  ci_word w base -> rmatch (word true base) (w ++ s) k = k s.
Proof.
  unfold ci_word. intros H. revert k.
  induction H as [|x c w base Hx _ IH]; intros k; simpl; [reflexivity|].
  rewrite Hx. apply IH.
Qed.

Lemma search_group_here pre grp s g :
  rmatch pre s (fun s1 => match_text grp s1) = Some g ->
  search_group pre grp s = Some g.
Proof. intros H. destruct s; simpl; now rewrite H. Qed.

Lemma field_head_not_space h :
  h = PLUS \/ ascii_digit h = true -> is_space h = false /\ (58 =? h)%N = false.
Proof.
  intros [->|Hh]; [split; reflexivity|].
  unfold ascii_digit, between in Hh. apply andb_true_iff in Hh as [H1 H2].
  apply N.leb_le in H1, H2. split.
  - destruct (is_space h) eqn:E; [|reflexivity].
    apply is_space_points in E. unfold space_points in E. simpl in E. lia.
  - apply N.eqb_neq. lia.
Qed.

Lemma firstn_app_exact (u r : str) :
  firstn (length (u ++ r) - length r) (u ++ r) = u.
Proof.
  rewrite length_app, Nat.add_sub, firstn_app, Nat.sub_diag, firstn_all.
  simpl. now rewrite app_nil_r.
Qed.

Lemma match_text_field_value v rest :
  field_value_shape v -> ends_value rest ->
  match_text campo_grp (v ++ rest) = Some v.
Proof.
  intros (h & t & -> & Hh & Ht & Hl) Hr.
  assert (Hhead : field_head h = true).
  { unfold field_head. destruct Hh as [->|Hh]; [reflexivity|].
    rewrite Hh. apply orb_true_r. }
  assert (Hrest : match_rest campo_grp ((h :: t) ++ rest) = Some rest).
  { unfold match_rest, campo_grp. cbn [seqs fold_right rmatch app].
    rewrite Hhead.
    now rewrite (rep_greedy field_class 6 t rest _ rest Ht Hl). }
  unfold match_text. rewrite Hrest. cbn [option_map].
  now rewrite firstn_app_exact.
Qed.

(** The part of a field pattern before its group, on a label followed by
    white space, an optional colon and white space. *)
Lemma campo_pre_match {A} base w ws1 colon ws2 tail (k : str -> option A) a :
  ci_word w base -> spaces ws1 -> spaces ws2 ->
  colon = [] \/ colon = py ":" ->
  stops is_space tail -> stops (N.eqb 58%N) tail -> k tail = Some a ->
  rmatch (campo_pre base) (w ++ ws1 ++ colon ++ ws2 ++ tail) k = Some a.
Proof.
  intros Hw H1 H2 Hc Hs Hn Hk. unfold campo_pre, lit.
  cbn [seqs fold_right]. cbn [rmatch]. rewrite (rmatch_word_ci _ _ _ _ Hw).
  assert (Hlast : rep is_space 0 tail k = Some a).
  { rewrite <- (app_nil_l tail). now apply rep_greedy. }
  destruct Hc as [->| ->].
  - cbn [app]. rewrite app_assoc.
    apply rep_greedy; trivial.
    + unfold spaces in *. now rewrite forallb_app, H1, H2.
    + lia.
    + cbn [rmatch]. destruct tail as [|c tail]; [exact Hlast|].
      cbn [stops] in Hn. rewrite Hn. exact Hlast.
  - change (py ":" ++ ws2 ++ tail) with (58%N :: ws2 ++ tail).
    apply rep_greedy; trivial; [lia|reflexivity|].
    cbn [rmatch]. change (58 =? 58)%N with true. cbv iota.
    rewrite (rep_greedy is_space 0 ws2 tail (fun s' => k s') a); trivial. lia.
Qed.

(** ** The other two cut patterns *)

Lemma forallb_eqb_repeat (c : char) (u : str) :
  forallb (N.eqb c) u = true <-> u = repeat c (length u).
Proof.
  induction u as [|x u IH]; simpl; [easy|].
  rewrite andb_true_iff, IH, N.eqb_eq. split.
  - intros [-> <-]. reflexivity.
  - intros [= <- H]. auto.
Qed.

Lemma lang_lit c u : lang (lit c) u <-> u = [c].
Proof.
  unfold lit. split.
  - intros H. apply lang_chr_inv in H as (x & -> & Hx).
    apply N.eqb_eq in Hx. now subst.
  - intros ->. constructor. apply N.eqb_refl.
Qed.

Lemma lang_spaces n u :
  lang (Rep is_space n) u <-> spaces u /\ n <= length u.
Proof.
  split; [apply lang_rep_inv|intros [H1 H2]; now constructor].
Qed.

Lemma nonempty_length (u : str) : 1 <= length u <-> u <> [].
Proof. destruct u; simpl; split; intros; try easy; lia. Qed.

Lemma dashes_line_iff s :
  matches_here CUT_DASHES s = true <-> dashes_line s.
Proof.
  rewrite matches_here_iff. unfold dashes_line, CUT_DASHES. split.
  - intros (u & v & -> & L).
    apply lang_seqs_cons in L as (x1 & u1 & -> & L1 & L).
    apply lang_seqs_cons in L as (ws1 & u2 & -> & L2 & L).
    apply lang_seqs_cons in L as (ds & u3 & -> & L3 & L).
    apply lang_seqs_cons in L as (ws2 & u4 & -> & L4 & L).
    apply lang_seqs_cons in L as (x2 & u5 & -> & L5 & L).
    apply lang_seqs_nil in L as ->.
    apply lang_lit in L1 as ->. apply lang_lit in L5 as ->.
    apply lang_spaces in L2 as [H2 _]. apply lang_spaces in L4 as [H4 _].
    apply lang_rep_inv in L3 as [H3 Hn]. apply forallb_eqb_repeat in H3.
    remember (length ds) as n eqn:En. clear En. subst ds.
    exists ws1, n, ws2, v.
    repeat split; trivial. simpl. now rewrite <- !app_assoc.
  - intros (ws1 & n & ws2 & rest & -> & H1 & Hn & H2).
    exists ([NL] ++ ws1 ++ repeat 45%N n ++ ws2 ++ [NL] ++ []), rest. split.
    + simpl. now rewrite <- !app_assoc.
    + apply lang_seqs_cons. eexists _, _. split; [reflexivity|].
      split; [now apply lang_lit|].
      apply lang_seqs_cons. eexists _, _. split; [reflexivity|].
      split; [apply lang_spaces; split; [assumption|lia]|].
      apply lang_seqs_cons. eexists _, _. split; [reflexivity|].
      split.
      { constructor; [|now rewrite repeat_length].
        apply forallb_eqb_repeat. now rewrite repeat_length. }
      apply lang_seqs_cons. eexists _, _. split; [reflexivity|].
      split; [apply lang_spaces; split; [assumption|lia]|].
      apply lang_seqs_cons. eexists _, _. split; [reflexivity|].
      split; [now apply lang_lit|now apply lang_seqs_nil].
Qed.

Lemma numero_header_iff s :
  matches_here CUT_NUMERO s = true <-> numero_header s.
Proof.
  rewrite matches_here_iff. unfold numero_header, CUT_NUMERO. split.
  - intros (u & v & -> & L).
    apply lang_seqs_cons in L as (x1 & u1 & -> & L1 & L).
    apply lang_seqs_cons in L as (ws0 & u2 & -> & L2 & L).
    apply lang_seqs_cons in L as (w1 & u3 & -> & L3 & L).
    apply lang_seqs_cons in L as (ws1 & u4 & -> & L4 & L).
    apply lang_seqs_cons in L as (w2 & u5 & -> & L5 & L).
    apply lang_seqs_cons in L as (ws2 & u6 & -> & L6 & L).
    apply lang_seqs_cons in L as (w3 & u7 & -> & L7 & L).
    apply lang_seqs_cons in L as (ws3 & u8 & -> & L8 & L).
    apply lang_seqs_nil in L as ->.
    apply lang_lit in L1 as ->.
    apply lang_spaces in L2 as [H2 _]. apply lang_spaces in L4 as [H4 N4].
    apply lang_spaces in L6 as [H6 N6]. apply lang_spaces in L8 as [H8 N8].
    apply nonempty_length in N4, N6, N8.
    apply lang_word_ci in L3, L5, L7.
    exists ws0, w1, ws1, w2, ws2, w3, ws3, v.
    repeat split; trivial. simpl. now rewrite <- !app_assoc.
  - intros (ws0 & w1 & ws1 & w2 & ws2 & w3 & ws3 & rest & -> & H0 & W1 & H1
            & N1 & W2 & H2 & N2 & W3 & H3 & N3).
    apply nonempty_length in N1, N2, N3.
    exists ([NL] ++ ws0 ++ w1 ++ ws1 ++ w2 ++ ws2 ++ w3 ++ ws3 ++ []), rest.
    split.
    + simpl. now rewrite <- !app_assoc.
    + apply lang_seqs_cons. eexists _, _. split; [reflexivity|].
      split; [now apply lang_lit|].
      apply lang_seqs_cons. eexists _, _. split; [reflexivity|].
      split; [apply lang_spaces; split; [assumption|lia]|].
      apply lang_seqs_cons. eexists _, _. split; [reflexivity|].
      split; [now apply lang_word_ci|].
      apply lang_seqs_cons. eexists _, _. split; [reflexivity|].
      split; [now apply lang_spaces|].
      apply lang_seqs_cons. eexists _, _. split; [reflexivity|].
      split; [now apply lang_word_ci|].
      apply lang_seqs_cons. eexists _, _. split; [reflexivity|].
      split; [now apply lang_spaces|].
      apply lang_seqs_cons. eexists _, _. split; [reflexivity|].
      split; [now apply lang_word_ci|].
      apply lang_seqs_cons. eexists _, _. split; [reflexivity|].
      split; [now apply lang_spaces|now apply lang_seqs_nil].
Qed.

Lemma cut_at_line a s pat :
  In pat CUT_PATTERNS -> matches_here pat s = true ->
  exists i, i <= length a /\ cut_index (a ++ s) = Some i
            /\ seccion (a ++ s) = firstn 400 (firstn i (a ++ s)).
Proof.
  intros Hp Hm.
  destruct (cut_index_found (a ++ s) (length a) pat Hp) as (i & Hi & Hle).
  - now rewrite skipn_app, skipn_all, Nat.sub_diag.
  - exists i. repeat (split; [assumption|]). unfold seccion. now rewrite Hi.
Qed.

(** ** The list of claim numbers *)

Lemma str_eqb_eq a b : str_eqb a b = true <-> a = b.
Proof.
  unfold str_eqb. destruct (list_eq_dec N.eq_dec a b); split; congruence.
Qed.

Lemma str_eqb_refl a : str_eqb a a = true.
Proof. now apply str_eqb_eq. Qed.

Lemma mem_in x seen : existsb (str_eqb x) seen = true <-> In x seen.
Proof.
  rewrite existsb_exists. split.
  - intros (y & Hy & E). apply str_eqb_eq in E. now subst.
  - intros H. exists x. split; [exact H|apply str_eqb_refl].
Qed.

Lemma normalizar_siniestro_digits s : all_digits (normalizar_siniestro s).
Proof. apply only_digits_all. Qed.

Lemma normalizar_siniestro_eq s : normalizar_siniestro s = only_digits s.
Proof. apply only_digits_strip. Qed.

Lemma normalizar_siniestro_fixed x :
  all_digits x -> normalizar_siniestro x = x.
Proof.
  intros H. rewrite normalizar_siniestro_eq. now apply only_digits_fixed.
Qed.

Lemma same_set_add seen out x :
  same_set seen out -> same_set (x :: seen) (out ++ [x]).
Proof.
  intros H y. rewrite in_app_iff. simpl. rewrite (H y). tauto.
Qed.

Lemma filtrar_loop_spec m lista : forall out seen,
  same_set seen out -> NoDup out ->
  NoDup (filtrar_loop m lista out seen)
  /\ forall x, In x (filtrar_loop m lista out seen) <->
               In x out
               \/ exists s, In s lista /\ x = normalizar_siniestro s
                            /\ largo m x = true.
Proof.
  induction lista as [|s lista IH]; intros out seen Hs Hn; simpl.
  - split; [exact Hn|]. intros x. split; [auto|].
    intros [H|(s & [] & _)]. exact H.
  - set (x0 := normalizar_siniestro s).
    assert (Hskip :
      largo m x0 = false \/ In x0 out ->
      NoDup (filtrar_loop m lista out seen)
      /\ forall x, In x (filtrar_loop m lista out seen) <->
           In x out
           \/ exists s', (s = s' \/ In s' lista)
                /\ x = normalizar_siniestro s' /\ largo m x = true).
    { intros Hwhy. destruct (IH out seen Hs Hn) as [Hnd Hin].
      split; [exact Hnd|]. intros x. rewrite Hin. split.
      - intros [H|(s' & H1 & H2 & H3)]; [auto|]. right. exists s'. auto.
      - intros [H|(s' & [<-|H1] & H2 & H3)]; [auto| |].
        + fold x0 in H2. subst x. destruct Hwhy as [Hw|Hw]; [congruence|auto].
        + right. exists s'. auto. }
    unfold largo in *.
    destruct (Z.of_nat (length x0) <? m)%Z eqn:El; [apply Hskip; auto|].
    destruct (existsb (str_eqb x0) seen) eqn:Em; simpl.
    + apply Hskip. right. apply Hs. now apply mem_in.
    + assert (Hnot : ~ In x0 out).
      { intros H. apply Hs, mem_in in H. congruence. }
      destruct (IH (out ++ [x0]) (x0 :: seen)) as [Hnd Hin].
      * now apply same_set_add.
      * apply NoDup_app; [exact Hn|repeat constructor; easy|].
        intros y Hy [<-|[]]. contradiction.
      * split; [exact Hnd|]. intros x. rewrite Hin, in_app_iff. simpl. split.
        -- intros [[H|[<-|[]]]|(s' & H1 & H2 & H3)]; [auto| |].
           ++ right. exists s. rewrite El. auto.
           ++ right. exists s'. auto.
        -- intros [H|(s' & [<-|H1] & H2 & H3)]; [auto| |].
           ++ left. right. left. now rewrite H2.
           ++ right. exists s'. auto.
Qed.

Lemma filtrar_loop_fixed m l : forall out seen,
  same_set seen out -> NoDup (out ++ l) ->
  (forall x, In x l -> all_digits x /\ largo m x = true) ->
  filtrar_loop m l out seen = out ++ l.
Proof.
  induction l as [|x l IH]; intros out seen Hs Hn Hl; simpl.
  - now rewrite app_nil_r.
  - destruct (Hl x (or_introl eq_refl)) as [Hd Hlen].
    rewrite (normalizar_siniestro_fixed x Hd).
    unfold largo in Hlen. apply negb_true_iff in Hlen. rewrite Hlen.
    assert (Hnot : existsb (str_eqb x) seen = false).
    { destruct (existsb (str_eqb x) seen) eqn:E; [|reflexivity].
      apply mem_in, Hs in E. apply NoDup_remove_2 in Hn.
      exfalso. apply Hn. apply in_or_app. now left. }
    rewrite Hnot. simpl.
    rewrite (IH (out ++ [x]) (x :: seen)).
    + now rewrite <- app_assoc.
    + now apply same_set_add.
    + now rewrite <- app_assoc.
    + intros y Hy. apply Hl. now right.
Qed.

Lemma filter_filter_and {A} (f g : A -> bool) l :
  filter f (filter g l) = filter (fun x => g x && f x) l.
Proof.
  induction l as [|a l IH]; simpl; [reflexivity|].
  destruct (g a); simpl; [destruct (f a)|]; now rewrite IH.
Qed.

Lemma filtrar_loop_primeras m lista : forall out seen,
  same_set seen out ->
  filtrar_loop m lista out seen
  = out ++ filter (fun y => negb (existsb (str_eqb y) out))
             (primeras (filter (largo m) (map normalizar_siniestro lista))).
Proof.
  induction lista as [|s lista IH]; intros out seen Hs; simpl.
  - now rewrite app_nil_r.
  - set (x0 := normalizar_siniestro s). unfold largo at 1.
    destruct (Z.of_nat (length x0) <? m)%Z eqn:El; simpl; [now apply IH|].
    set (P := primeras (filter (largo m) (map normalizar_siniestro lista))).
    destruct (existsb (str_eqb x0) seen) eqn:Em; simpl.
    + assert (Hin : existsb (str_eqb x0) out = true).
      { apply mem_in, Hs, mem_in. exact Em. }
      rewrite Hin. simpl. rewrite (IH out seen Hs). fold P. f_equal.
      rewrite filter_filter_and. apply filter_ext. intros y.
      destruct (existsb (str_eqb y) out) eqn:Ey;
        [now rewrite andb_false_r|].
      rewrite andb_true_r. simpl. symmetry. apply negb_true_iff.
      destruct (str_eqb x0 y) eqn:E; [|reflexivity].
      apply str_eqb_eq in E. subst y. congruence.
    + assert (Hin : existsb (str_eqb x0) out = false).
      { destruct (existsb (str_eqb x0) out) eqn:E; [|reflexivity].
        apply mem_in, Hs, mem_in in E. congruence. }
      rewrite Hin. simpl. rewrite (IH (out ++ [x0]) (x0 :: seen)).
      * fold P. rewrite <- app_assoc. simpl. do 2 f_equal.
        rewrite filter_filter_and. apply filter_ext. intros y.
        rewrite existsb_app. simpl. rewrite orb_false_r, negb_orb.
        rewrite andb_comm. f_equal. f_equal.
        destruct (str_eqb x0 y) eqn:E1, (str_eqb y x0) eqn:E2;
          try reflexivity.
        -- apply str_eqb_eq in E1. subst y.
           now rewrite str_eqb_refl in E2.
        -- apply str_eqb_eq in E2. subst y.
           now rewrite str_eqb_refl in E1.
      * now apply same_set_add.
Qed.

(** ** The normalizer of the script *)

Lemma str_eqb_neq a b : a <> b -> str_eqb a b = false.
Proof.
  intros H. destruct (str_eqb a b) eqn:E; [|reflexivity].
  apply str_eqb_eq in E. contradiction.
Qed.

Lemma startswith_plus_digits s :
  all_digits s -> startswith (py "+") s = false.
Proof.
  intros Hd. destruct s as [|c s]; [reflexivity|].
  change (startswith (py "+") (c :: s)) with ((PLUS =? c)%N && true).
  unfold all_digits in Hd.
  change (forallb is_digit (c :: s)) with (is_digit c && forallb is_digit s) in Hd.
  apply andb_true_iff in Hd as [Hc _].
  now rewrite N.eqb_sym, (digit_not_plus _ Hc).
Qed.

(** The script normalizer on a national number. *)
Lemma normalizar_telefono_spanish y :
  spanish_number y -> normalizar_telefono y = Some y.
Proof.
  intros H. destruct (spanish_number_inv y H) as (d & t & -> & Hl & Ht & Hd).
  destruct H as [[Hlen Hall] H6789].
  unfold normalizar_telefono. cbv zeta. change (null (d :: t)) with false.
  cbv iota.
  rewrite (startswith_plus_digits _ Hall), (only_digits_fixed _ Hall).
  rewrite !(startswith_plus_digits _ Hall).
  rewrite (str_eqb_neq (d :: t) []) by discriminate.
  rewrite (str_eqb_neq (d :: t) (py "+"))
    by (intros [= -> ->]; simpl in Hl; discriminate).
  cbv [orb]. cbv iota.
  assert (H34 : startswith (py "+34") (d :: t) = false).
  { destruct Hd as [-> | [-> | [-> | ->]]]; reflexivity. }
  rewrite H34, Hlen. cbv [negb].
  change (9 =? 11) with false. change (9 =? 10) with false.
  change (9 =? 9) with true.
  rewrite !andb_false_r, !andb_false_l. cbv iota.
  change (at_ (d :: t) 0) with (hd 0%N (d :: t)). rewrite H6789.
  reflexivity.
Qed.

(** A result of the script normalizer is a national number, or the
    digits of the input, with their plus sign if it has one, when they
    are 10 to 15. *)
Lemma normalizar_telefono_cases s y :
  normalizar_telefono s = Some y ->
  spanish_number y
  \/ (exists ds, y = PLUS :: ds /\ all_digits ds /\ 10 <= length ds <= 15
                 /\ startswith (py "+") s = true
                 /\ ds = only_digits (skipn 1 s))
  \/ (all_digits y /\ 10 <= length y <= 15
      /\ startswith (py "+") s = false /\ y = only_digits s).
Proof.
  unfold normalizar_telefono. destruct (null s); [discriminate|]. cbv zeta.
  destruct (startswith (py "+") s) eqn:EP.
  - set (ds := only_digits (skipn 1 s)).
    assert (Hds : all_digits ds) by apply only_digits_all.
    change (py "+" ++ ds) with (PLUS :: ds).
    destruct (str_eqb (PLUS :: ds) [] || str_eqb (PLUS :: ds) (py "+"));
      [discriminate|].
    change (startswith (py "+") (PLUS :: ds)) with true.
    cbv [negb]. rewrite !andb_false_l. cbv iota.
    assert (E3 : skipn 3 (PLUS :: ds) = skipn 2 ds) by reflexivity.
    rewrite E3. clear E3.
    assert (Hr : all_digits (skipn 2 ds)) by exact (all_digits_skipn 2 ds Hds).
    set (r := skipn 2 ds) in *.
    change (length (PLUS :: ds) - 1) with (length ds - 0).
    rewrite Nat.sub_0_r.
    destruct (startswith (py "+34") (PLUS :: ds)) eqn:E34.
    + destruct ((length r =? 9) && in_chars (at_ r 0) "6789") eqn:E9.
      * clearbody r. intros [= <-]. left.
        apply andb_true_iff in E9 as [E9 E6]. apply Nat.eqb_eq in E9.
        split; [split; [exact E9|exact Hr]|].
        destruct r; [discriminate|exact E6].
      * intros H. break_if H; [|discriminate]. injection H as <-.
        right; left. exists ds.
        apply andb_true_iff in E as [E1 E2]. apply Nat.leb_le in E1, E2.
        repeat split; trivial.
    + intros H. break_if H; [|discriminate]. injection H as <-.
      right; left. exists ds.
      apply andb_true_iff in E as [E1 E2]. apply Nat.leb_le in E1, E2.
      repeat split; trivial.
  - set (ds := only_digits s).
    assert (Hds : all_digits ds) by apply only_digits_all.
    clearbody ds.
    destruct (str_eqb ds [] || str_eqb ds (py "+")); [discriminate|].
    rewrite (startswith_plus_digits _ Hds).
    assert (H34 : startswith (py "+34") ds = false).
    { destruct ds as [|c ds']; [reflexivity|].
      pose proof (startswith_plus_digits _ Hds) as HP.
      change (startswith (py "+") (c :: ds')) with ((PLUS =? c)%N && true) in HP.
      rewrite andb_true_r in HP.
      change (startswith (py "+34") (c :: ds'))
        with ((PLUS =? c)%N && startswith (py "34") ds').
      now rewrite HP. }
    rewrite H34. cbv [negb]. rewrite !andb_true_l. cbv iota.
    intros H. break_if H.
    { injection H as <-. left.
      apply andb_true_iff in E as [E E6]. apply andb_true_iff in E as [_ E11].
      apply Nat.eqb_eq in E11. unfold last_n. rewrite E11.
      change (11 - 9) with 2.
      destruct ds as [|a [|b [|c r]]]; try discriminate.
      change (skipn 2 (a :: b :: c :: r)) with (c :: r).
      split; [split|exact E6].
      - simpl in E11. simpl. lia.
      - exact (all_digits_skipn 2 _ Hds). }
    break_if H.
    { injection H as <-. left.
      apply andb_true_iff in E0 as [E0 E6].
      apply andb_true_iff in E0 as [E10 _]. apply Nat.eqb_eq in E10.
      destruct ds as [|a [|b r]]; try discriminate.
      change (skipn 1 (a :: b :: r)) with (b :: r).
      split; [split|exact E6].
      - simpl in E10. simpl. lia.
      - exact (all_digits_skipn 1 _ Hds). }
    break_if H.
    { injection H as <-. left.
      apply andb_true_iff in E1 as [E9 E6]. apply Nat.eqb_eq in E9.
      destruct ds as [|a r]; [discriminate|].
      split; [split; assumption|exact E6]. }
    break_if H; [|discriminate]. injection H as <-.
    right; right.
    apply andb_true_iff in E2 as [E1' E2']. apply Nat.leb_le in E1', E2'.
    repeat split; trivial.
Qed.

Lemma normalizar_telefono_congr s1 s2 :
  null s1 = false -> null s2 = false ->
  (if startswith (py "+") s1 then py "+" ++ only_digits (skipn 1 s1)
   else only_digits s1)
  = (if startswith (py "+") s2 then py "+" ++ only_digits (skipn 1 s2)
     else only_digits s2) ->
  normalizar_telefono s1 = normalizar_telefono s2.
Proof.
  intros H1 H2 H. unfold normalizar_telefono. cbv zeta.
  now rewrite H1, H2, H.
Qed.

Lemma normalizar_telefono_fixed s y :
  normalizar_telefono s = Some y -> normalizar_telefono y = Some y.
Proof.
  intros H. pose proof H as Hc. apply normalizar_telefono_cases in Hc.
  destruct Hc as [Hsp|[(ds & -> & Hds & Hlen & HP & Eds)|(Hy & Hlen & HP & Ey)]].
  - now apply normalizar_telefono_spanish.
  - rewrite <- H. apply normalizar_telefono_congr.
    + reflexivity.
    + destruct s; [discriminate|reflexivity].
    + change (startswith (py "+") (PLUS :: ds)) with true. cbv iota.
      change (skipn 1 (PLUS :: ds)) with ds.
      now rewrite HP, (only_digits_fixed _ Hds), Eds.
  - rewrite <- H. apply normalizar_telefono_congr.
    + destruct y; [simpl in Hlen; lia|reflexivity].
    + destruct s; [|reflexivity]. subst y. simpl in Hlen. lia.
    + now rewrite HP, (startswith_plus_digits _ Hy), (only_digits_fixed _ Hy).
Qed.

Lemma normalizar_telefono_prefijos ds :
  spanish_number ds ->
  normalizar_telefono (py "+34" ++ ds) = Some ds
  /\ normalizar_telefono (py "34" ++ ds) = Some ds
  /\ normalizar_telefono (py "0" ++ ds) = Some ds.
Proof.
  intros H. destruct (spanish_number_inv ds H) as (d & t & -> & Hl & Ht & Hd).
  destruct H as [[Hlen Hall] H6789].
  change (hd 0%N (d :: t)) with d in H6789.
  assert (Hdig : is_digit d = true).
  { destruct Hd as [-> | [-> | [-> | ->]]]; reflexivity. }
  assert (H34 : all_digits (51%N :: 52%N :: d :: t)).
  { unfold all_digits in *. cbn [forallb]. now rewrite Hdig, Ht. }
  assert (H0 : all_digits (48%N :: d :: t)).
  { unfold all_digits in *. cbn [forallb]. now rewrite Hdig, Ht. }
  split; [|split]; unfold normalizar_telefono; cbv zeta.
  - change (py "+34" ++ d :: t) with (PLUS :: 51%N :: 52%N :: d :: t).
    change (null (PLUS :: 51%N :: 52%N :: d :: t)) with false. cbv iota.
    change (startswith (py "+") (PLUS :: 51%N :: 52%N :: d :: t)) with true.
    cbv iota.
    change (skipn 1 (PLUS :: 51%N :: 52%N :: d :: t))
      with (51%N :: 52%N :: d :: t).
    rewrite (only_digits_fixed _ H34).
    change (py "+" ++ 51%N :: 52%N :: d :: t)
      with (PLUS :: 51%N :: 52%N :: d :: t).
    rewrite (str_eqb_neq _ []) by discriminate.
    rewrite (str_eqb_neq _ (py "+")) by discriminate. cbv [orb]. cbv iota.
    change (startswith (py "+34") (PLUS :: 51%N :: 52%N :: d :: t)) with true.
    cbv iota.
    change (skipn 3 (PLUS :: 51%N :: 52%N :: d :: t)) with (d :: t).
    rewrite Hlen. change (at_ (d :: t) 0) with d. rewrite H6789. reflexivity.
  - change (py "34" ++ d :: t) with (51%N :: 52%N :: d :: t).
    change (null (51%N :: 52%N :: d :: t)) with false. cbv iota.
    rewrite !(startswith_plus_digits _ H34), (only_digits_fixed _ H34).
    rewrite !(startswith_plus_digits _ H34).
    rewrite (str_eqb_neq _ []) by discriminate.
    rewrite (str_eqb_neq _ (py "+")) by discriminate. cbv [orb negb]. cbv iota.
    change (startswith (py "+34") (51%N :: 52%N :: d :: t)) with false.
    cbv iota.
    change (startswith (py "34") (51%N :: 52%N :: d :: t)) with true.
    unfold last_n.
    change (length (51%N :: 52%N :: d :: t)) with (S (S (length (d :: t)))).
    rewrite Hlen. change (at_ (51%N :: 52%N :: d :: t) 2) with d.
    rewrite H6789. reflexivity.
  - change (py "0" ++ d :: t) with (48%N :: d :: t).
    change (null (48%N :: d :: t)) with false. cbv iota.
    rewrite !(startswith_plus_digits _ H0), (only_digits_fixed _ H0).
    rewrite !(startswith_plus_digits _ H0).
    rewrite (str_eqb_neq _ []) by discriminate.
    rewrite (str_eqb_neq _ (py "+")) by discriminate. cbv [orb negb]. cbv iota.
    change (startswith (py "+34") (48%N :: d :: t)) with false. cbv iota.
    change (startswith (py "34") (48%N :: d :: t)) with false.
    rewrite !andb_false_l. cbv iota.
    change (startswith (py "0") (48%N :: d :: t)) with true.
    change (length (48%N :: d :: t)) with (S (length (d :: t))).
    rewrite Hlen. change (at_ (48%N :: d :: t) 1) with d.
    rewrite H6789. reflexivity.
Qed.

(** ** Further properties of the page object *)

(** X1.  [_normalizar_telefono] rejects every input without a digit: the
    empty string, white space, separators, a lone plus sign. *)
Theorem normalizar_rejects_without_digits raw :
  only_digits raw = [] -> _normalizar_telefono raw = None.
Proof. apply normalizar_sin_digitos. Qed.

Lemma normalizar_rejects_without_digits_witness :
  only_digits (py " +(--). ") = []
  /\ _normalizar_telefono (py " +(--). ") = None.
Proof.
  split; [by_evaluation|].
  apply (normalizar_rejects_without_digits (py " +(--). ")). by_evaluation.
Defined.

(** X2.  The digits of a result of [_normalizar_telefono] are the digits
    of its input in the same order, less a leading 0, 00 or 34 at most:
    the normalizer drops separators and one prefix, and changes no
    digit. *)
Theorem normalizar_keeps_digits raw y :
  _normalizar_telefono raw = Some y ->
  exists dropped,
    only_digits raw = dropped ++ only_digits y
    /\ In dropped [[]; py "0"; py "00"; py "34"].
Proof. apply normalizar_digits. Qed.

Lemma normalizar_keeps_digits_witness :
  _normalizar_telefono (py " (34) 612-345.678") = Some (py "612345678")
  /\ exists dropped,
       only_digits (py " (34) 612-345.678")
       = dropped ++ only_digits (py "612345678")
       /\ In dropped [[]; py "0"; py "00"; py "34"].
Proof.
  split; [by_evaluation|].
  apply (normalizar_keeps_digits (py " (34) 612-345.678")). by_evaluation.
Defined.

(** X3.  For nine digits [ds] of which the first is 6, 7, 8 or 9,
    [_normalizar_telefono] reduces 0 ds, 34 ds and 00 ds to [ds], and
    keeps +34 ds and 0034 ds as the international number +34 ds. *)
Theorem normalizar_spanish_prefixes ds :
  spanish_number ds ->
  _normalizar_telefono (py "0" ++ ds) = Some ds
  /\ _normalizar_telefono (py "34" ++ ds) = Some ds
  /\ _normalizar_telefono (py "00" ++ ds) = Some ds
  /\ _normalizar_telefono (py "+34" ++ ds) = Some (py "+34" ++ ds)
  /\ _normalizar_telefono (py "0034" ++ ds) = Some (py "+34" ++ ds).
Proof. apply normalizar_prefijos. Qed.

Lemma normalizar_spanish_prefixes_witness :
  spanish_number (py "912345678")
  /\ _normalizar_telefono (py "0" ++ py "912345678") = Some (py "912345678")
  /\ _normalizar_telefono (py "34" ++ py "912345678") = Some (py "912345678")
  /\ _normalizar_telefono (py "00" ++ py "912345678") = Some (py "912345678")
  /\ _normalizar_telefono (py "+34" ++ py "912345678")
     = Some (py "+34" ++ py "912345678")
  /\ _normalizar_telefono (py "0034" ++ py "912345678")
     = Some (py "+34" ++ py "912345678").
Proof.
  assert (H : spanish_number (py "912345678")).
  { split; [split|]; by_evaluation. }
  split; [exact H|].
  exact (normalizar_spanish_prefixes (py "912345678") H).
Defined.

(** X4.  White space around its input, no-break spaces included, does not
    change the result of [_normalizar_telefono]. *)
Theorem normalizar_ignores_outer_space ws1 raw ws2 :
  spaces ws1 -> spaces ws2 ->
  _normalizar_telefono (ws1 ++ raw ++ ws2) = _normalizar_telefono raw.
Proof.
  intros H1 H2. apply normalizar_strip. now apply strip_spaces.
Qed.

Lemma normalizar_ignores_outer_space_witness :
  spaces [32%N; NBSP] /\ spaces [NL]
  /\ _normalizar_telefono ([32%N; NBSP] ++ py "600 111 222" ++ [NL])
     = _normalizar_telefono (py "600 111 222").
Proof.
  split; [by_evaluation|]. split; [by_evaluation|].
  apply (normalizar_ignores_outer_space [32%N; NBSP] (py "600 111 222") [NL]);
    by_evaluation.
Defined.

(** X5.  Every candidate the scan of [_extraer_numero_telefono] yields is
    a part of the text of at least eight characters: an optional + or 00,
    white space, a digit, six or more digits and separators, and a digit
    at the end. *)
Theorem candidates_shape texto c :
  In c (finditer PHONE_CANDIDATE_RE texto) ->
  candidate_shape c /\ infix_of c texto /\ 8 <= length c.
Proof.
  intros H. apply finditer_from_sound in H as [L Hi].
  apply candidate_lang in L. split; [exact L|]. split; [exact Hi|].
  destruct L as (p & ws & d1 & mid & d2 & -> & _ & _ & _ & _ & Hm & _).
  rewrite !length_app. simpl. rewrite length_app. simpl. lia.
Qed.

Lemma candidates_shape_witness :
  In (py " 612345678") (finditer PHONE_CANDIDATE_RE (py " llamar al 612345678"))
  /\ candidate_shape (py " 612345678")
  /\ infix_of (py " 612345678") (py " llamar al 612345678")
  /\ 8 <= length (py " 612345678").
Proof.
  assert (H : In (py " 612345678")
                (finditer PHONE_CANDIDATE_RE (py " llamar al 612345678"))).
  { vm_compute. left. reflexivity. }
  split; [exact H|].
  exact (candidates_shape (py " llamar al 612345678") (py " 612345678") H).
Defined.

(** X6.  [extraer_telefono] returns nothing for a text without digits,
    whatever labels it holds. *)
Theorem extraer_telefono_needs_digits uni_word phonenumbers texto :
  only_digits texto = [] ->
  extraer_telefono uni_word phonenumbers texto = None.
Proof.
  intros H. rewrite extraer_telefono_primero. unfold busquedas.
  rewrite !(buscar_en_seccion_no_digits phonenumbers texto _ H).
  rewrite !(buscar_campo_no_digits uni_word phonenumbers texto _ H).
  reflexivity.
Qed.

Lemma extraer_telefono_needs_digits_witness :
  only_digits (py "OBSERVACIONES MANUALES: sin telefono. TELEF-: +(--).,-()") = []
  /\ extraer_telefono ascii_only None
       (py "OBSERVACIONES MANUALES: sin telefono. TELEF-: +(--).,-()") = None.
Proof.
  split; [by_evaluation|].
  apply (extraer_telefono_needs_digits ascii_only None). by_evaluation.
Defined.

(** X7.  The value the pattern of a field captures is a part of the text
    made of a plus sign or ASCII digit followed by six or more ASCII
    digits and separators; it holds no letter, so the cut at the word
    HORA leaves every captured value as it is. *)
Theorem field_capture_has_no_hora uni_word campo_base texto valor :
  search_group (campo_pre campo_base) campo_grp texto = Some valor ->
  field_value_shape valor /\ infix_of valor texto
  /\ before_hora uni_word None valor = valor.
Proof.
  intros H. apply search_group_sound in H as [L Hi].
  apply campo_grp_lang in L. split; [exact L|]. split; [exact Hi|].
  apply before_hora_id. now apply field_value_no_H.
Qed.

Lemma field_capture_has_no_hora_witness :
  search_group (campo_pre (py "TELEF-1")) campo_grp
    (py "TELEF-1: 612 345 678 HORA 10:30") = Some (py "612 345 678 ")
  /\ field_value_shape (py "612 345 678 ")
  /\ infix_of (py "612 345 678 ") (py "TELEF-1: 612 345 678 HORA 10:30")
  /\ before_hora ascii_only None (py "612 345 678 ") = py "612 345 678 ".
Proof.
  split; [by_evaluation|].
  apply (field_capture_has_no_hora ascii_only (py "TELEF-1")
           (py "TELEF-1: 612 345 678 HORA 10:30")).
  by_evaluation.
Defined.

(** X8.  A field is read in the three layouts TELEF-1:value,
    TELEF-1 : value and TELEF-1 value, with its label in any case: when
    the text begins with the label, optional white space, an optional
    colon, optional white space and a value that ends at the end of the
    text or at a character the pattern does not take, the search is that
    of the candidates of the value, and what follows the value, later
    occurrences of the label included, is not read. *)
Theorem campo_layouts uni_word phonenumbers campo w ws1 colon ws2 v rest :
  ci_word w (strip (remove_char 58%N campo)) ->
  spaces ws1 -> spaces ws2 -> colon = [] \/ colon = py ":" ->
  field_value_shape v -> ends_value rest ->
  _buscar_campo_telef uni_word phonenumbers
    (w ++ ws1 ++ colon ++ ws2 ++ v ++ rest) campo
  = _extraer_numero_telefono phonenumbers (strip v).
Proof.
  intros Hw H1 H2 Hc Hv Hr. unfold _buscar_campo_telef.
  assert (Hhead : stops is_space (v ++ rest) /\ stops (N.eqb 58%N) (v ++ rest)).
  { destruct Hv as (h & t & -> & Hh & _). cbn [app stops].
    now apply field_head_not_space. }
  destruct Hhead as [Hs Hn].
  rewrite (search_group_here _ _ _ v).
  - now rewrite (before_hora_id uni_word v (field_value_no_H v Hv)).
  - apply campo_pre_match; trivial. now apply match_text_field_value.
Qed.

Lemma campo_layouts_witness :
  ci_word (py "Telef-1") (strip (remove_char 58%N (py "TELEF-1:")))
  /\ spaces (py " ") /\ spaces (py "  ")
  /\ field_value_shape (py "612 345 678 ")
  /\ ends_value (py "HORA 10:30 TELEF-1: 699999999")
  /\ _buscar_campo_telef ascii_only None
       (py "Telef-1" ++ py " " ++ py ":" ++ py "  " ++ py "612 345 678 "
        ++ py "HORA 10:30 TELEF-1: 699999999") (py "TELEF-1:")
     = _extraer_numero_telefono None (strip (py "612 345 678 ")).
Proof.
  assert (Hw : ci_word (py "Telef-1") (strip (remove_char 58%N (py "TELEF-1:")))).
  { vm_compute. repeat constructor. }
  assert (Hv : field_value_shape (py "612 345 678 ")).
  { exists 54%N, (py "12 345 678 "). split; [reflexivity|].
    split; [right; reflexivity|]. split; [by_evaluation|]. vm_compute. lia. }
  assert (Hr : ends_value (py "HORA 10:30 TELEF-1: 699999999"))
    by by_evaluation.
  split; [exact Hw|]. split; [by_evaluation|]. split; [by_evaluation|].
  split; [exact Hv|]. split; [exact Hr|].
  apply (campo_layouts ascii_only None (py "TELEF-1:") (py "Telef-1") (py " ")
           (py ":") (py "  ") (py "612 345 678 ")
           (py "HORA 10:30 TELEF-1: 699999999")); trivial;
    first [by_evaluation | now right].
Defined.

(** X9.  The first cut pattern matches a newline followed by a line of
    ten or more dashes, with white space around them, up to its newline,
    and nothing else; a remainder with such a line is cut at or before the
    newline that opens it. *)
Theorem dashes_line_cuts :
  (forall s, matches_here CUT_DASHES s = true <-> dashes_line s)
  /\ (forall a s, dashes_line s ->
        exists i, i <= length a /\ cut_index (a ++ s) = Some i
                  /\ seccion (a ++ s) = firstn 400 (firstn i (a ++ s))).
Proof.
  split; [exact dashes_line_iff|].
  intros a s H. apply (cut_at_line a s CUT_DASHES).
  - unfold CUT_PATTERNS. simpl. auto.
  - now apply dashes_line_iff.
Qed.

Lemma dashes_line_cuts_witness :
  dashes_line (NL :: py "  -----------" ++ [NL])
  /\ exists i, i <= length (py " cita 612345678")
       /\ cut_index (py " cita 612345678" ++ NL :: py "  -----------" ++ [NL])
          = Some i
       /\ seccion (py " cita 612345678" ++ NL :: py "  -----------" ++ [NL])
          = firstn 400
              (firstn i (py " cita 612345678" ++ NL :: py "  -----------" ++ [NL])).
Proof.
  assert (H : dashes_line (NL :: py "  -----------" ++ [NL])).
  { exists (py "  "), 11, [], []. split; [by_evaluation|].
    split; [by_evaluation|]. split; [lia|reflexivity]. }
  split; [exact H|].
  exact (proj2 dashes_line_cuts (py " cita 612345678") _ H).
Defined.

(** X10.  The third cut pattern matches a newline followed by the words
    NUMERO, FECHA and RESERVA in any case, each followed by white space
    and the first preceded by optional white space, and nothing else; a
    remainder with such a header is cut at or before the newline that
    opens it. *)
Theorem numero_header_cuts :
  (forall s, matches_here CUT_NUMERO s = true <-> numero_header s)
  /\ (forall a s, numero_header s ->
        exists i, i <= length a /\ cut_index (a ++ s) = Some i
                  /\ seccion (a ++ s) = firstn 400 (firstn i (a ++ s))).
Proof.
  split; [exact numero_header_iff|].
  intros a s H. apply (cut_at_line a s CUT_NUMERO).
  - unfold CUT_PATTERNS. simpl. auto.
  - now apply numero_header_iff.
Qed.

Lemma numero_header_cuts_witness :
  numero_header (NL :: py "Numero  Fecha Reserva 699999999")
  /\ exists i, i <= length (py " cita 612345678")
       /\ cut_index (py " cita 612345678"
                     ++ NL :: py "Numero  Fecha Reserva 699999999") = Some i
       /\ seccion (py " cita 612345678"
                   ++ NL :: py "Numero  Fecha Reserva 699999999")
          = firstn 400
              (firstn i (py " cita 612345678"
                         ++ NL :: py "Numero  Fecha Reserva 699999999")).
Proof.
  assert (H : numero_header (NL :: py "Numero  Fecha Reserva 699999999")).
  { exists [], (py "Numero"), (py "  "), (py "Fecha"), (py " "),
      (py "Reserva"), (py " "), (py "699999999").
    split; [by_evaluation|]. split; [reflexivity|].
    split; [vm_compute; repeat constructor|].
    split; [by_evaluation|]. split; [discriminate|].
    split; [vm_compute; repeat constructor|].
    split; [by_evaluation|]. split; [discriminate|].
    split; [vm_compute; repeat constructor|].
    split; [by_evaluation|discriminate]. }
  split; [exact H|].
  exact (proj2 numero_header_cuts (py " cita 612345678") _ H).
Defined.

(** X11.  A section is the beginning of the remainder, of at most 400
    characters; a number that lies beyond 400 characters without digits
    after the label is not found. *)
Theorem seccion_window phonenumbers :
  (forall chunk, length (seccion chunk) <= 400
                 /\ exists rest, chunk = seccion chunk ++ rest)
  /\ (forall pre label filler rest,
        rfind (label ++ filler ++ rest) label = Some 0 ->
        400 <= length filler -> only_digits filler = [] ->
        _buscar_en_seccion phonenumbers (pre ++ label ++ filler ++ rest) label
        = None).
Proof.
  split.
  - intros chunk. unfold seccion. split; [apply firstn_le_length|].
    destruct (cut_index chunk) as [i|].
    + exists (skipn 400 (firstn i chunk) ++ skipn i chunk).
      now rewrite app_assoc, !firstn_skipn.
    + exists (skipn 400 chunk). now rewrite firstn_skipn.
  - intros pre label filler rest Hlast Hlen H0.
    rewrite (buscar_en_seccion_last phonenumbers pre label (filler ++ rest) Hlast).
    apply extraer_numero_no_digits.
    apply (only_digits_nil_incl _ filler); [|exact H0].
    intros x Hx. apply incl_seccion in Hx.
    rewrite firstn_app in Hx.
    replace (400 - length filler) with 0 in Hx by lia.
    rewrite firstn_O, app_nil_r in Hx. exact (incl_firstn _ _ x Hx).
Qed.

Lemma seccion_window_witness :
  rfind (DESCRIPCION ++ repeat 120%N 400 ++ py " 612345678") DESCRIPCION
  = Some 0
  /\ 400 <= length (repeat 120%N 400)
  /\ only_digits (repeat 120%N 400) = []
  /\ _buscar_en_seccion None
       (py "nota " ++ DESCRIPCION ++ repeat 120%N 400 ++ py " 612345678")
       DESCRIPCION = None.
Proof.
  split; [by_evaluation|]. split; [by_evaluation|]. split; [by_evaluation|].
  apply (proj2 (seccion_window None)); by_evaluation.
Defined.

(** X12.  The search in a section returns nothing when its label does not
    occur in the text as it is written, with its capitals and its
    colon. *)
Theorem buscar_en_seccion_absent phonenumbers texto label :
  (forall m, m <= length texto -> startswith label (skipn m texto) = false) ->
  _buscar_en_seccion phonenumbers texto label = None.
Proof.
  intros H. unfold _buscar_en_seccion.
  destruct (rfind texto label) as [pos|] eqn:E; [|reflexivity].
  unfold rfind in E. apply rfind_from_some in E as (_ & Hl & Ho & _).
  rewrite Nat.sub_0_r in *. now rewrite (H pos Hl) in Ho.
Qed.

Lemma absent_by_check texto label :
  forallb (fun m => negb (startswith label (skipn m texto)))
          (seq 0 (S (length texto))) = true ->
  forall m, m <= length texto -> startswith label (skipn m texto) = false.
Proof.
  intros H m Hm. apply negb_true_iff.
  apply (proj1 (forallb_forall _ _) H m). apply in_seq. lia.
Qed.

Lemma buscar_en_seccion_absent_witness :
  (forall m, m <= length (py "Descripcion: llamar al 612345678") ->
             startswith DESCRIPCION
               (skipn m (py "Descripcion: llamar al 612345678")) = false)
  /\ _buscar_en_seccion None (py "Descripcion: llamar al 612345678")
       DESCRIPCION = None.
Proof.
  assert (H : forall m, m <= length (py "Descripcion: llamar al 612345678") ->
                startswith DESCRIPCION
                  (skipn m (py "Descripcion: llamar al 612345678")) = false).
  { apply absent_by_check. by_evaluation. }
  split; [exact H|].
  exact (buscar_en_seccion_absent None _ _ H).
Defined.

(** ** The claim numbers *)

(** X13.  [normalizar_siniestro] keeps the digits of its argument and
    nothing else (its [strip] removes nothing the substitution would
    keep), and is idempotent. *)
Theorem normalizar_siniestro_digits_only s :
  normalizar_siniestro s = only_digits s
  /\ all_digits (normalizar_siniestro s)
  /\ normalizar_siniestro (normalizar_siniestro s) = normalizar_siniestro s.
Proof.
  split; [apply normalizar_siniestro_eq|].
  split; [apply normalizar_siniestro_digits|].
  apply normalizar_siniestro_fixed, normalizar_siniestro_digits.
Qed.

Lemma largo_le m x : largo m x = true <-> (m <= Z.of_nat (length x))%Z.
Proof.
  unfold largo. rewrite negb_true_iff, Z.ltb_ge. reflexivity.
Qed.

(** X14.  The list [filtrar_siniestros_validos] returns has no duplicate,
    and holds exactly the normal forms of the entries of its input that
    have at least [min_len] digits; every element is a string of
    digits. *)
Theorem filtrar_siniestros_validos_members lista min_len :
  NoDup (filtrar_siniestros_validos lista min_len)
  /\ (forall x, In x (filtrar_siniestros_validos lista min_len) <->
        exists s, In s lista /\ x = normalizar_siniestro s
                  /\ (min_len <= Z.of_nat (length x))%Z)
  /\ (forall x, In x (filtrar_siniestros_validos lista min_len) ->
                all_digits x).
Proof.
  unfold filtrar_siniestros_validos.
  destruct (filtrar_loop_spec min_len lista [] []) as [Hn Hin];
    [easy|constructor|].
  assert (Hiff : forall x, In x (filtrar_loop min_len lista [] []) <->
            exists s, In s lista /\ x = normalizar_siniestro s
                      /\ (min_len <= Z.of_nat (length x))%Z).
  { intros x. rewrite Hin. split.
    - intros [[]|(s & H1 & H2 & H3)]. exists s. now rewrite <- largo_le.
    - intros (s & H1 & H2 & H3). right. exists s. now rewrite largo_le. }
  split; [exact Hn|]. split; [exact Hiff|].
  intros x Hx. apply Hiff in Hx as (s & _ & -> & _).
  apply normalizar_siniestro_digits.
Qed.

(** X15.  [filtrar_siniestros_validos] keeps the order of the input: its
    result is the list of the normal forms that are long enough, each at
    the place of its first occurrence. *)
Theorem filtrar_siniestros_validos_order lista min_len :
  filtrar_siniestros_validos lista min_len
  = primeras (filter (largo min_len) (map normalizar_siniestro lista)).
Proof.
  unfold filtrar_siniestros_validos.
  rewrite (filtrar_loop_primeras min_len lista [] []) by easy.
  simpl. induction (primeras _) as [|x l IH]; simpl; [reflexivity|].
  now rewrite IH.
Qed.

(** X16.  Filtering a filtered list again changes nothing. *)
Theorem filtrar_siniestros_validos_idempotent lista min_len :
  filtrar_siniestros_validos (filtrar_siniestros_validos lista min_len) min_len
  = filtrar_siniestros_validos lista min_len.
Proof.
  unfold filtrar_siniestros_validos.
  destruct (filtrar_loop_spec min_len lista [] []) as [Hn Hin];
    [easy|constructor|].
  rewrite filtrar_loop_fixed; [reflexivity|easy|exact Hn|].
  intros x Hx. apply Hin in Hx as [[]|(s & _ & -> & Hl)].
  split; [apply normalizar_siniestro_digits|exact Hl].
Qed.

(** ** The normalizer of the script *)

(** X17.  A result of [normalizar_telefono] is either nine digits of
    which the first is 6, 7, 8 or 9, or a plus sign followed by 10 to 15
    digits, or 10 to 15 digits without a plus sign. *)
Theorem normalizar_telefono_shapes s y :
  normalizar_telefono s = Some y ->
  spanish_number y
  \/ (exists ds, y = PLUS :: ds /\ all_digits ds /\ 10 <= length ds <= 15)
  \/ (all_digits y /\ 10 <= length y <= 15).
Proof.
  intros H. apply normalizar_telefono_cases in H.
  destruct H as [H|[(ds & H1 & H2 & H3 & _)|(H1 & H2 & _)]]; [auto| |auto].
  right; left. exists ds. auto.
Qed.

Lemma normalizar_telefono_shapes_witness :
  normalizar_telefono (py "+33 6 12 34 56 78") = Some (py "+33612345678")
  /\ (spanish_number (py "+33612345678")
      \/ (exists ds, py "+33612345678" = PLUS :: ds /\ all_digits ds
                     /\ 10 <= length ds <= 15)
      \/ (all_digits (py "+33612345678")
          /\ 10 <= length (py "+33612345678") <= 15)).
Proof.
  split; [by_evaluation|].
  apply (normalizar_telefono_shapes (py "+33 6 12 34 56 78")). by_evaluation.
Defined.

(** X18.  [normalizar_telefono] is idempotent: it returns each of its
    results unchanged. *)
Theorem normalizar_telefono_idempotent s y :
  normalizar_telefono s = Some y -> normalizar_telefono y = Some y.
Proof. apply normalizar_telefono_fixed. Qed.

Lemma normalizar_telefono_idempotent_witness :
  normalizar_telefono (py "0034 612 345 678") = Some (py "0034612345678")
  /\ normalizar_telefono (py "0034612345678") = Some (py "0034612345678").
Proof.
  split; [by_evaluation|].
  apply (normalizar_telefono_idempotent (py "0034 612 345 678")).
  by_evaluation.
Defined.

(** X19.  The two normalizers differ on the prefix +34: for nine digits
    [ds] of which the first is 6, 7, 8 or 9, the normalizer of the script
    reduces +34 ds to [ds], and the normalizer of the page keeps +34 ds;
    both reduce 34 ds and 0 ds to [ds] and keep [ds]. *)
Theorem normalizers_on_spanish_prefix ds :
  spanish_number ds ->
  normalizar_telefono (py "+34" ++ ds) = Some ds
  /\ _normalizar_telefono (py "+34" ++ ds) = Some (py "+34" ++ ds)
  /\ normalizar_telefono (py "34" ++ ds) = Some ds
  /\ _normalizar_telefono (py "34" ++ ds) = Some ds
  /\ normalizar_telefono (py "0" ++ ds) = Some ds
  /\ _normalizar_telefono (py "0" ++ ds) = Some ds
  /\ normalizar_telefono ds = Some ds
  /\ _normalizar_telefono ds = Some ds.
Proof.
  intros H.
  destruct (normalizar_telefono_prefijos ds H) as (S1 & S2 & S3).
  destruct (normalizar_prefijos ds H) as (P0 & P34 & _ & PP & _).
  repeat (split; [assumption|]).
  split; [now apply normalizar_telefono_spanish|].
  destruct H as [H9 H6]. apply normalizar_nine; [exact H9|].
  destruct (spanish_number_inv ds (conj H9 H6)) as (d & t & -> & _ & _ & Hd).
  destruct Hd as [-> | [-> | [-> | ->]]]; reflexivity.
Qed.

Lemma normalizers_on_spanish_prefix_witness :
  spanish_number (py "612345678")
  /\ normalizar_telefono (py "+34" ++ py "612345678") = Some (py "612345678")
  /\ _normalizar_telefono (py "+34" ++ py "612345678")
     = Some (py "+34" ++ py "612345678").
Proof.
  assert (H : spanish_number (py "612345678")).
  { split; [split|]; by_evaluation. }
  split; [exact H|].
  destruct (normalizers_on_spanish_prefix (py "612345678") H) as (A & B & _).
  split; [exact A|exact B].
Defined.

(** ** Where a returned number comes from *)

Lemma infix_trans (a b c : str) : infix_of a b -> infix_of b c -> infix_of a c.
Proof.
  intros (p & q & ->) (p' & q' & ->). exists (p' ++ p), (q ++ q').
  now rewrite <- !app_assoc.
Qed.

Lemma infix_firstn (n : nat) (s : str) : infix_of (firstn n s) s.
Proof. exists [], (skipn n s). simpl. now rewrite firstn_skipn. Qed.

Lemma infix_skipn (n : nat) (s : str) : infix_of (skipn n s) s.
Proof. exists (firstn n s), []. now rewrite app_nil_r, firstn_skipn. Qed.

Lemma lstrip_suffix s : exists a, s = a ++ lstrip s.
Proof.
  induction s as [|c s [a IH]]; [now exists []|]. simpl.
  destruct (is_space c); [|now exists []].
  exists (c :: a). simpl. now rewrite <- IH.
Qed.

Lemma infix_strip s : infix_of (strip s) s.
Proof.
  unfold strip, rstrip. destruct (lstrip_suffix s) as [a Ha].
  destruct (lstrip_suffix (rev (lstrip s))) as [b Hb].
  exists a, (rev b). rewrite Ha at 1. f_equal.
  rewrite <- (rev_involutive (lstrip s)) at 1. rewrite Hb at 1.
  now rewrite rev_app_distr.
Qed.

Lemma before_hora_prefix uni_word s : forall prev,
  exists b, s = before_hora uni_word prev s ++ b.
Proof.
  induction s as [|c s IH]; intros prev; [now exists []|].
  cbn [before_hora]. destruct (hora_here uni_word prev (c :: s)).
  - now exists (c :: s).
  - destruct (IH (Some c)) as [b E]. exists b. simpl. now rewrite <- E.
Qed.

Lemma infix_seccion chunk : infix_of (seccion chunk) chunk.
Proof.
  unfold seccion. destruct (cut_index chunk) as [i|].
  - exact (infix_trans _ _ _ (infix_firstn 400 _) (infix_firstn i chunk)).
  - apply infix_firstn.
Qed.

(** A number found by one of the searches is the normal form of a
    candidate that is a part of the text. *)
Lemma extraer_numero_from phonenumbers texto tel :
  _extraer_numero_telefono phonenumbers texto = Some tel ->
  exists c, infix_of c texto /\ candidate_shape c
            /\ _normalizar_telefono c = Some tel.
Proof.
  intros H. apply extraer_numero_some in H as (c & Hin & Hn & _).
  apply finditer_from_sound in Hin as [L Hi]. apply candidate_lang in L.
  exists c. auto.
Qed.

Lemma buscar_en_seccion_from phonenumbers texto etiqueta tel :
  _buscar_en_seccion phonenumbers texto etiqueta = Some tel ->
  exists c, infix_of c texto /\ candidate_shape c
            /\ _normalizar_telefono c = Some tel.
Proof.
  unfold _buscar_en_seccion. destruct (rfind texto etiqueta) as [pos|];
    [|discriminate].
  intros H. apply extraer_numero_from in H as (c & Hi & Hc & Hn).
  exists c. split; [|auto].
  exact (infix_trans _ _ _ Hi
           (infix_trans _ _ _ (infix_seccion _) (infix_skipn _ texto))).
Qed.

Lemma buscar_campo_from uni_word phonenumbers texto campo tel :
  _buscar_campo_telef uni_word phonenumbers texto campo = Some tel ->
  exists c, infix_of c texto /\ candidate_shape c
            /\ _normalizar_telefono c = Some tel.
Proof.
  unfold _buscar_campo_telef.
  destruct (search_group _ _ texto) as [valor|] eqn:E; [|discriminate].
  intros H. apply extraer_numero_from in H as (c & Hi & Hc & Hn).
  apply search_group_sound in E as [_ Hv].
  exists c. split; [|auto].
  destruct (before_hora_prefix uni_word valor None) as [b Hb].
  assert (Hh : infix_of (before_hora uni_word None valor) valor).
  { exists [], b. exact Hb. }
  exact (infix_trans _ _ _ Hi
           (infix_trans _ _ _ (infix_strip _) (infix_trans _ _ _ Hh Hv))).
Qed.

(** X20.  [extraer_telefono] invents no digit: a number it returns is the
    normal form of a candidate that is a part of the text of the record,
    and its digits are the digits of that part, in their order, less a
    leading 0, 00 or 34 at most. *)
Theorem extraer_telefono_from_text uni_word phonenumbers texto tel :
  extraer_telefono uni_word phonenumbers texto = Some tel ->
  exists c dropped,
    infix_of c texto /\ candidate_shape c
    /\ _normalizar_telefono c = Some tel
    /\ only_digits c = dropped ++ only_digits tel
    /\ In dropped [[]; py "0"; py "00"; py "34"].
Proof.
  rewrite extraer_telefono_primero. intros H.
  apply primero_some in H as (r & Hin & ->).
  assert (exists c, infix_of c texto /\ candidate_shape c
                    /\ _normalizar_telefono c = Some tel)
    as (c & Hi & Hc & Hn).
  { unfold busquedas in Hin. simpl in Hin.
    destruct Hin as [H|[H|[H|[H|[]]]]];
      first [ exact (buscar_en_seccion_from _ _ _ _ H)
            | exact (buscar_campo_from _ _ _ _ _ H) ]. }
  destruct (normalizar_digits c tel Hn) as (dropped & Hd & Hin').
  exists c, dropped. auto.
Qed.

Lemma extraer_telefono_from_text_witness :
  extraer_telefono ascii_only None
    (py "TELEF-1: 0034 612 345 678 HORA 10:30") = Some (py "+34612345678")
  /\ exists c dropped,
       infix_of c (py "TELEF-1: 0034 612 345 678 HORA 10:30")
       /\ candidate_shape c
       /\ _normalizar_telefono c = Some (py "+34612345678")
       /\ only_digits c = dropped ++ only_digits (py "+34612345678")
       /\ In dropped [[]; py "0"; py "00"; py "34"].
Proof.
  split; [by_evaluation|].
  apply (extraer_telefono_from_text ascii_only None
           (py "TELEF-1: 0034 612 345 678 HORA 10:30")).
  by_evaluation.
Defined.

(** ** The digits of a returned number *)

Lemma only_digits_infix c s :
  infix_of c s -> incl (only_digits c) (only_digits s).
Proof.
  intros H x Hx. unfold only_digits in *.
  apply filter_In in Hx as [Hx Hd]. apply filter_In.
  split; [exact (infix_incl c s H x Hx)|exact Hd].
Qed.

(** The digits of a number [extraer_telefono] returns are digits of the
    text. *)
Lemma extraer_telefono_digits_incl uni_word phonenumbers texto tel :
  extraer_telefono uni_word phonenumbers texto = Some tel ->
  incl (only_digits tel) (only_digits texto).
Proof.
  rewrite extraer_telefono_primero. intros H.
  apply primero_some in H as (r & Hin & ->).
  assert (exists c, infix_of c texto /\ candidate_shape c
                    /\ _normalizar_telefono c = Some tel)
    as (c & Hi & _ & Hn).
  { unfold busquedas in Hin. simpl in Hin.
    destruct Hin as [H|[H|[H|[H|[]]]]];
      first [ exact (buscar_en_seccion_from _ _ _ _ H)
            | exact (buscar_campo_from _ _ _ _ _ H) ]. }
  destruct (normalizar_digits c tel Hn) as (dropped & Hd & _).
  intros x Hx. apply (only_digits_infix c texto Hi). rewrite Hd.
  apply in_or_app. now right.
Qed.

Lemma digits_09_incl (t s : str) : incl t s -> digits_09 s -> digits_09 t.
Proof.
  unfold digits_09. rewrite !forallb_forall. intros Hi Hs x Hx.
  exact (Hs x (Hi x Hx)).
Qed.

(** C10, as stated, fails: the class [\d] of the candidate pattern and of
    the normalizer holds every Unicode decimal digit.  For a description
    that holds 6 followed by the Arabic-Indic digits 1 to 8,
    [extraer_telefono] returns these nine characters, whatever the
    library: a string without a plus sign that is not nine of the digits
    0 to 9. *)
Lemma extraer_telefono_arabic_indic_digits :
  (forall uni_word phonenumbers,
     extraer_telefono uni_word phonenumbers doc_arabigo = Some seis_arabigo)
  /\ startswith (py "+") seis_arabigo = false
  /\ ~ national_mobile_09 seis_arabigo.
Proof.
  split; [intros uni_word phonenumbers; by_evaluation|].
  split; [reflexivity|].
  intros (_ & H & _). vm_compute in H. discriminate.
Qed.

(** C10, amended.  A number [extraer_telefono] returns was accepted by the
    classifier; when it does not begin with a plus sign it is nine digits
    of which the first is 6 or 7, and when it does, the plus sign is
    followed by 8 to 15 digits, a digit being a character of the class
    [\d], any Unicode decimal digit.  When the decimal digits of the text
    are all among 0 to 9, so are those of the number. *)
Theorem extraer_telefono_mobile_shape uni_word phonenumbers texto tel :
  extraer_telefono uni_word phonenumbers texto = Some tel ->
  _es_movil phonenumbers tel = true
  /\ (startswith (py "+") tel = false -> national_mobile tel)
  /\ (startswith (py "+") tel = true -> plus_digits tel)
  /\ (digits_09 (only_digits texto) ->
      (startswith (py "+") tel = false -> national_mobile_09 tel)
      /\ (startswith (py "+") tel = true -> plus_digits_09 tel)).
Proof.
  intros H. pose proof (extraer_telefono_digits_incl _ _ _ _ H) as Hincl.
  apply extraer_telefono_some in H as (cand & Hn & Hm).
  apply normalizar_shape in Hn.
  assert (Hnat : startswith (py "+") tel = false -> national_mobile tel).
  { intros HP.
    destruct (es_movil_national phonenumbers tel Hm HP) as [_ H67].
    destruct Hn as [H9|(ds & -> & _)]; [now split|discriminate]. }
  assert (Hplus : startswith (py "+") tel = true -> plus_digits tel).
  { intros HP. destruct Hn as [[Hl Hd]|Hp]; [|exact Hp].
    destruct tel as [|c tel']; [discriminate|].
    change (startswith (py "+") (c :: tel')) with ((PLUS =? c)%N && true) in HP.
    rewrite andb_true_r in HP. apply N.eqb_eq in HP. subst c.
    unfold all_digits in Hd.
    change (forallb is_digit (PLUS :: tel'))
      with (is_digit PLUS && forallb is_digit tel') in Hd.
    rewrite plus_not_digit in Hd. discriminate. }
  split; [exact Hm|]. split; [exact Hnat|]. split; [exact Hplus|].
  intros H09.
  assert (Htel : digits_09 (only_digits tel))
    by exact (digits_09_incl _ _ Hincl H09).
  split; intros HP.
  - destruct (Hnat HP) as [[Hl Hd] H67].
    rewrite (only_digits_fixed tel Hd) in Htel. now split.
  - destruct (Hplus HP) as (ds & -> & Hl & Hd).
    exists ds. split; [reflexivity|]. split; [exact Hl|].
    unfold only_digits in Htel. cbn [filter] in Htel.
    rewrite plus_not_digit in Htel.
    fold (only_digits ds) in Htel. now rewrite (only_digits_fixed ds Hd) in Htel.
Qed.

Lemma extraer_telefono_mobile_shape_witness :
  extraer_telefono ascii_only (Some reject_all) doc_telef1
  = Some (py "685789868")
  /\ digits_09 (only_digits doc_telef1)
  /\ _es_movil (Some reject_all) (py "685789868") = true
  /\ (startswith (py "+") (py "685789868") = false ->
      national_mobile (py "685789868"))
  /\ (startswith (py "+") (py "685789868") = true ->
      plus_digits (py "685789868"))
  /\ (startswith (py "+") (py "685789868") = false ->
      national_mobile_09 (py "685789868"))
  /\ (startswith (py "+") (py "685789868") = true ->
      plus_digits_09 (py "685789868")).
Proof.
  assert (H : extraer_telefono ascii_only (Some reject_all) doc_telef1
              = Some (py "685789868")) by by_evaluation.
  assert (H09 : digits_09 (only_digits doc_telef1)) by by_evaluation.
  split; [exact H|]. split; [exact H09|].
  destruct (extraer_telefono_mobile_shape ascii_only (Some reject_all)
              doc_telef1 (py "685789868") H) as (A & B & C & D).
  destruct (D H09) as [E F].
  split; [exact A|]. split; [exact B|]. split; [exact C|].
  split; [exact E|exact F].
Defined.
